(** * A shallow embedding of the ONOS charm (src/src/charm.py)

    The charm keeps its persistent state in an ops [StoredState]
    ([apps], [started], [ready], [users], [groups]); it talks to the
    workload container (files, pebble service) and to the ONOS REST API.
    Python dicts are insertion-ordered association lists, the [apps] set
    is a duplicate-free list, exceptions are an error result that keeps
    every mutation made before the raise (Python has no rollback).
    Python strings are sequences of code points; a Rocq [ascii] stands for
    the code point [nat_of_ascii c], so the model's strings are those over
    U+0000-U+00FF (Latin-1). A Rocq string literal is read byte by byte:
    the code point U+00E9 is ["233"%char], not the literal ["é"]. *)

From Stdlib Require Import String Ascii List Bool ZArith.
Import ListNotations.
Open Scope string_scope.
Open Scope list_scope.

(** ** Constants *)

Definition NL : string := String (ascii_of_nat 10) EmptyString.

Definition ROOT_FOLDER := "/root/onos".
Definition SYS_APP := "org.onosproject.drivers".
Definition GUI_APP := "org.onosproject.gui2".

Definition ALL_ROLES : list string :=
  ["group"; "admin"; "manager"; "viewer"; "systembundles"; "ssh"; "webconsole"].

Definition ADMIN_USERNAME := "admin".
Definition ADMIN_GROUP_NAME := "admingroup".
Definition GUEST_USERNAME := "guest".
Definition GUEST_GROUP_NAME := "guestgroup".

Definition DEFAULT_GROUPS : list (string * list string) :=
  [(ADMIN_GROUP_NAME, ALL_ROLES); (GUEST_GROUP_NAME, ["group"; "viewer"])].

(** [ASYNC_LOGGING]: the triple-quoted literal starts and ends with a newline. *)
Definition ASYNC_LOGGING : string :=
  NL ++ "log4j.appender.async=org.apache.log4j.AsyncAppender" ++ NL
     ++ "log4j.appender.async.appenders=rolling" ++ NL.

(** ** Python dicts as insertion-ordered association lists *)

Definition dict (V : Type) := list (string * V).

Definition dict_mem {V} (k : string) (d : dict V) : bool :=
  existsb (fun p => String.eqb (fst p) k) d.

Fixpoint dict_get {V} (k : string) (d : dict V) : option V :=
  match d with
  | [] => None
  | (k', v) :: d' => if String.eqb k' k then Some v else dict_get k d'
  end.

(** [d[k] = v]: an existing key keeps its position, a new key goes last. *)
Definition dict_set {V} (k : string) (v : V) (d : dict V) : dict V :=
  if dict_mem k d
  then map (fun p => if String.eqb (fst p) k then (k, v) else p) d
  else d ++ [(k, v)].

(** [d.update(e)] *)
Definition dict_update {V} (d e : dict V) : dict V :=
  fold_left (fun acc p => dict_set (fst p) (snd p) acc) e d.

Definition dict_remove {V} (k : string) (d : dict V) : dict V :=
  filter (fun p => negb (String.eqb (fst p) k)) d.

Definition mem (x : string) (l : list string) : bool := existsb (String.eqb x) l.

(** ** Configuration, environment and state *)

(** The juju config as the charm reads it. [config.get("enable-guest")] on an
    unset key gives [None], which is falsy: read as [false]. *)
Record Config := {
  admin_password : option string;
  guest_password : option string;
  enable_guest : bool;
  enable_gui : bool;
  java_opts : string;
  external_hostname : option string
}.

Inductive FileType := Directory | RegularFile | Symlink | OtherFile.

Definition filetype_eqb (a b : FileType) : bool :=
  match a, b with
  | Directory, Directory | RegularFile, RegularFile
  | Symlink, Symlink | OtherFile, OtherFile => true
  | _, _ => false
  end.

(** What the charm reads and does not own: the config, the entries of
    [/root/onos] (name and type), the file names of [/root/onos/apps]
    (the application catalog) and whether an ingress relation object
    was built in [__init__]. *)
Record Env := {
  config : Config;
  root_entries : list (string * FileType);
  apps_dir : list string;
  has_ingress : bool
}.

Record UserData := { u_group : string; u_password : string }.

Record Stored := {
  apps : list string;
  started : bool;
  ready : bool;
  users : dict UserData;
  groups : dict (list string)
}.

(** The workload container: its files by path, whether the pebble
    service [onos] is active, and whether the pebble plan defines it (it
    does once the [onos] layer has been added). *)
Record Container := {
  files : dict string;
  svc_active : bool;
  svc_defined : bool
}.

Record St := { stored : Stored; container : Container }.

(** Requests sent outside the charm (ONOS REST API, pebble, ingress). *)
Inductive Req :=
  | HttpPost (url : string) (auth : string * string)
  | HttpDelete (url : string) (auth : string * string)
  | IngressUpdate (hostname : option string)
  | AddLayer (onos_apps : string) (java_opts : string)
  | SvcStart
  | SvcStop.

(** The exceptions raised by the charm, named after the spec's taxonomy;
    the comment on each gives the Python raise it stands for. *)
Inductive Err :=
  | ConfigMissing (key : string)   (* ConfigMissingException *)
  | KeyError (key : string)        (* self.config[...] / dict.pop on a missing key *)
  | IndexError                     (* files[0] on an empty list *)
  | PathError (path : string)      (* container.pull of a missing file *)
  | UnknownApplication             (* "Application does not exist." *)
  | AlreadyActive (name : string)  (* "application ... is already active" *)
  | NotActive (name : string)      (* "application ... is not active" *)
  | UnknownGroup (g : string)      (* "group ... does not exist" *)
  | DuplicateUser (u : string)     (* "user ... already exists" *)
  | UnknownUser (u : string)       (* "user ... does not exist" *)
  | ReservedIdentifier (n : string)(* "... is reserved" *)
  | InvalidRole (roles : list string) (* "role(s) ... not exist" / "not alphanumeric" *)
  | InvalidInput                   (* ValueError "roles must be a string" *)
  | ServiceAlreadyActive           (* "onos service is already active" *)
  | ServiceNotRunning              (* "onos service is not running" *)
  | ModelError.                    (* get_service("onos") with no such service in the plan *)

Inductive res (A : Type) := Ok (a : A) | Raise (e : Err).
Arguments Ok {A} a.
Arguments Raise {A} e.

(** ** The charm monad: reader on [Env], state on [St], output of requests,
    exceptions that keep the state reached at the raise. *)

Definition M (A : Type) := Env -> St -> St * list Req * res A.

Definition ret {A} (a : A) : M A := fun _ s => (s, [], Ok a).

Definition raise {A} (e : Err) : M A := fun _ s => (s, [], Raise e).

Definition bind {A B} (m : M A) (f : A -> M B) : M B :=
  fun env s =>
    match m env s with
    | (s1, o1, Ok a) =>
        match f a env s1 with
        | (s2, o2, r) => (s2, o1 ++ o2, r)
        end
    | (s1, o1, Raise e) => (s1, o1, Raise e)
    end.

Declare Scope charm_scope.
Delimit Scope charm_scope with charm.
Notation "x <- m ;; f" := (bind m (fun x => f))
  (at level 61, m at next level, right associativity) : charm_scope.
Notation "m ;; f" := (bind m (fun _ => f))
  (at level 61, right associativity) : charm_scope.
Open Scope charm_scope.

Definition ask : M Env := fun env s => (s, [], Ok env).
Definition get : M St := fun _ s => (s, [], Ok s).
Definition put (s : St) : M unit := fun _ _ => (s, [], Ok tt).
Definition emit (r : Req) : M unit := fun _ s => (s, [r], Ok tt).

Definition modify_stored (f : Stored -> Stored) : M unit :=
  fun _ s => ({| stored := f (stored s); container := container s |}, [], Ok tt).

Definition modify_container (f : Container -> Container) : M unit :=
  fun _ s => ({| stored := stored s; container := f (container s) |}, [], Ok tt).

Definition set_apps (a : list string) (st : Stored) : Stored :=
  {| apps := a; started := started st; ready := ready st;
     users := users st; groups := groups st |}.
Definition set_users (u : dict UserData) (st : Stored) : Stored :=
  {| apps := apps st; started := started st; ready := ready st;
     users := u; groups := groups st |}.
Definition set_groups (g : dict (list string)) (st : Stored) : Stored :=
  {| apps := apps st; started := started st; ready := ready st;
     users := users st; groups := g |}.
Definition set_ready (b : bool) (st : Stored) : Stored :=
  {| apps := apps st; started := started st; ready := b;
     users := users st; groups := groups st |}.
Definition set_started (b : bool) (st : Stored) : Stored :=
  {| apps := apps st; started := b; ready := ready st;
     users := users st; groups := groups st |}.

(** [self.config["admin-password"]]: a missing key raises [KeyError]. *)
Definition config_admin_password : M string :=
  env <- ask ;;
  match admin_password (config env) with
  | Some p => ret p
  | None => raise (KeyError "admin-password")
  end.

Definition config_guest_password : M string :=
  env <- ask ;;
  match guest_password (config env) with
  | Some p => ret p
  | None => raise (KeyError "guest-password")
  end.

(** ** Container file access *)

Definition pull (path : string) : M string :=
  s <- get ;;
  match dict_get path (files (container s)) with
  | Some c => ret c
  | None => raise (PathError path)
  end.

Definition push (path content : string) : M unit :=
  modify_container (fun c => {| files := dict_set path content (files c);
                                svc_active := svc_active c;
                                svc_defined := svc_defined c |}).

(** [list_files(ROOT_FOLDER, pattern="apache-karaf-*")]: the glob keeps the
    entries whose name starts with [apache-karaf-]. *)
Definition list_karaf_entries (env : Env) : list (string * FileType) :=
  filter (fun e => String.prefix "apache-karaf-" (fst e)) (root_entries env).

(** [_get_apache_karaf_folder_path]: the names of the directories among
    them, and [files[0]]. *)
Definition karaf_dirs (env : Env) : list string :=
  map fst (filter (fun e => filetype_eqb (snd e) Directory) (list_karaf_entries env)).

Definition get_apache_karaf_folder_path : M string :=
  env <- ask ;;
  match karaf_dirs env with
  | f :: _ => ret f
  | [] => raise IndexError
  end.

(** Python's truthiness of a string. *)
Definition str_truthy (s : string) : bool := negb (String.eqb s EmptyString).

(** ** The credentials renderer ([USERS_TEMPLATE] rendered by jinja2)

    Default jinja2 options: blocks are not trimmed and the single trailing
    newline of the template source is dropped. *)

Definition user_line (u : string * UserData) : string :=
  fst u ++ " = " ++ u_password (snd u) ++ ",_g_:" ++ u_group (snd u).

Definition group_line (g : string * list string) : string :=
  "_g_\:" ++ fst g ++ " = " ++ String.concat "," (snd g).

Fixpoint render_lines {A} (line : A -> string) (l : list A) : string :=
  match l with
  | [] => EmptyString
  | x :: r => line x ++ NL ++ render_lines line r
  end.

Definition render (us : dict UserData) (gs : dict (list string)) : string :=
  NL ++ render_lines user_line us ++ NL ++ NL ++ render_lines group_line gs.

Definition users_path (folder : string) : string :=
  ROOT_FOLDER ++ "/" ++ folder ++ "/etc/users.properties".

Definition logging_path (folder : string) : string :=
  ROOT_FOLDER ++ "/" ++ folder ++ "/etc/org.ops4j.pax.logging.cfg".

(** ** Configuration steps *)

Definition admin_user (pw : string) : dict UserData :=
  [(ADMIN_USERNAME, {| u_group := ADMIN_GROUP_NAME; u_password := pw |})].

Definition guest_user (pw : string) : dict UserData :=
  [(GUEST_USERNAME, {| u_group := GUEST_GROUP_NAME; u_password := pw |})].

Definition update_users (e : dict UserData) : M unit :=
  modify_stored (fun st => set_users (dict_update (users st) e) st).

Definition update_groups (e : dict (list string)) : M unit :=
  modify_stored (fun st => set_groups (dict_update (groups st) e) st).

Definition when (b : bool) (m : M unit) : M unit := if b then m else ret tt.

Definition configure_users_and_groups : M unit :=
  folder <- get_apache_karaf_folder_path ;;
  s <- get ;;
  when (negb (dict_mem ADMIN_USERNAME (users (stored s))))
    (pw <- config_admin_password ;; update_users (admin_user pw)) ;;
  env <- ask ;;
  s <- get ;;
  when (enable_guest (config env) && negb (dict_mem GUEST_USERNAME (users (stored s))))
    (pw <- config_guest_password ;; update_users (guest_user pw)) ;;
  s <- get ;;
  when (forallb (fun g => negb (dict_mem g (groups (stored s)))) (map fst DEFAULT_GROUPS))
    (update_groups DEFAULT_GROUPS) ;;
  s <- get ;;
  when (ready (stored s) && str_truthy folder)
    (push (users_path folder) (render (users (stored s)) (groups (stored s)))).

(** Python's [needle in haystack] on strings. *)
Fixpoint contains (needle hay : string) : bool :=
  String.prefix needle hay ||
  match hay with
  | EmptyString => false
  | String _ t => contains needle t
  end.

Definition configure_async_logging : M unit :=
  folder <- get_apache_karaf_folder_path ;;
  s <- get ;;
  when (ready (stored s) && str_truthy folder)
    (content <- pull (logging_path folder) ;;
     when (negb (contains ASYNC_LOGGING content))
       (push (logging_path folder) (content ++ ASYNC_LOGGING))).

(** ** Applications *)

Definition get_available_apps : M (list string) :=
  env <- ask ;; ret (apps_dir env).

Definition check_app_exists (name : string) : M unit :=
  avail <- get_available_apps ;;
  if mem name avail then ret tt else raise UnknownApplication.

Definition app_url (name : string) : string :=
  "http://localhost:8181/onos/v1/applications/" ++ name ++ "/active".

Definition set_add (x : string) (l : list string) : list string :=
  if mem x l then l else l ++ [x].

Definition set_remove (x : string) (l : list string) : list string :=
  filter (fun y => negb (String.eqb y x)) l.

Definition activate_app (name : string) : M unit :=
  check_app_exists name ;;
  s <- get ;;
  if mem name (apps (stored s)) then raise (AlreadyActive name) else
  modify_stored (fun st => set_apps (set_add name (apps st)) st) ;;
  s <- get ;;
  when (started (stored s))
    (pw <- config_admin_password ;; emit (HttpPost (app_url name) (ADMIN_USERNAME, pw))).

Definition deactivate_app (name : string) : M unit :=
  check_app_exists name ;;
  s <- get ;;
  if negb (mem name (apps (stored s))) then raise (NotActive name) else
  modify_stored (fun st => set_apps (set_remove name (apps st)) st) ;;
  s <- get ;;
  when (started (stored s))
    (pw <- config_admin_password ;; emit (HttpDelete (app_url name) (ADMIN_USERNAME, pw))).

(** ** The reconciliation pass ([_configure]) *)

Definition configure_gui_app : M unit :=
  s <- get ;;
  env <- ask ;;
  let gui_enabled := mem GUI_APP (apps (stored s)) in
  let config_enable_gui := enable_gui (config env) in
  if config_enable_gui && negb gui_enabled then activate_app GUI_APP
  else if negb config_enable_gui && gui_enabled then deactivate_app GUI_APP
  else ret tt.

Definition configure_ingress : M unit :=
  env <- ask ;;
  when (has_ingress env) (emit (IngressUpdate (external_hostname (config env)))).

Definition check_config : M unit :=
  env <- ask ;;
  match admin_password (config env) with
  | None => raise (ConfigMissing "admin-password")
  | Some _ =>
      when (enable_guest (config env))
        (match guest_password (config env) with
         | None => raise (ConfigMissing "guest-password")
         | Some _ => ret tt
         end)
  end.

Definition configure : M unit :=
  check_config ;;
  configure_gui_app ;;
  configure_users_and_groups ;;
  configure_ingress ;;
  configure_async_logging.

(** ** Credential store operations *)

Definition add_user (username password group : string) : M unit :=
  s <- get ;;
  if negb (dict_mem group (groups (stored s))) then raise (UnknownGroup group) else
  if dict_mem username (users (stored s)) then raise (DuplicateUser username) else
  if mem username [ADMIN_USERNAME; GUEST_USERNAME]
  then raise (ReservedIdentifier username) else
  update_users [(username, {| u_group := group; u_password := password |})] ;;
  configure_users_and_groups.

Definition add_group (groupname : string) (roles : list string) : M unit :=
  if mem groupname [ADMIN_GROUP_NAME; GUEST_GROUP_NAME]
  then raise (ReservedIdentifier groupname) else
  let non_existing_roles := filter (fun role => negb (mem role ALL_ROLES)) roles in
  match non_existing_roles with
  | _ :: _ => raise (InvalidRole non_existing_roles)
  | [] => update_groups [(groupname, roles)] ;; configure_users_and_groups
  end.

Definition delete_user (username : string) : M unit :=
  s <- get ;;
  if negb (dict_mem username (users (stored s))) then raise (UnknownUser username) else
  if mem username [ADMIN_USERNAME; GUEST_USERNAME]
  then raise (ReservedIdentifier username) else
  modify_stored (fun st => set_users (dict_remove username (users st)) st) ;;
  configure_users_and_groups.

(** [self.groups.pop(groupname)] raises [KeyError] on a missing name. *)
Definition delete_group (groupname : string) : M unit :=
  if mem groupname [ADMIN_GROUP_NAME; GUEST_GROUP_NAME]
  then raise (ReservedIdentifier groupname) else
  s <- get ;;
  if negb (dict_mem groupname (groups (stored s))) then raise (KeyError groupname) else
  modify_stored (fun st => set_groups (dict_remove groupname (groups st)) st) ;;
  configure_users_and_groups.

(** ** Role-list parsing ([_parse_roles]) *)

(** The action parameter as a Python value. *)
Inductive PyVal :=
  | PStr (s : string)
  | PNone
  | PBool (b : bool)
  | PInt (z : Z)
  | PObj (nonempty : bool).  (* any other object: a list, a dict, ... *)

Definition truthy (v : PyVal) : bool :=
  match v with
  | PStr s => str_truthy s
  | PNone => false
  | PBool b => b
  | PInt z => negb (Z.eqb z 0)
  | PObj b => b
  end.

Definition is_str (v : PyVal) : bool :=
  match v with PStr _ => true | _ => false end.

(** [s.split(",")] *)
Fixpoint split_comma (s : string) : list string :=
  match s with
  | EmptyString => [EmptyString]
  | String c r =>
      let rest := split_comma r in
      if Ascii.eqb c "," then EmptyString :: rest
      else match rest with
           | h :: t => String c h :: t
           | [] => [String c EmptyString]
           end
  end.

(** Python's [chr(n).isalnum()] on the code points U+0000-U+00FF:
    the ASCII digits and letters, the Latin-1 letters (ª, µ, º, À-Ö, Ø-ö,
    ø-ÿ) and the Latin-1 numerics (², ³, ¹, ¼, ½, ¾). *)
Definition is_alnum_char (c : ascii) : bool :=
  let n := nat_of_ascii c in
  let within a b := Nat.leb a n && Nat.leb n b in
  within 48 57 || within 65 90 || within 97 122
  || Nat.eqb n 170 || within 178 179 || Nat.eqb n 181 || within 185 186
  || within 188 190 || within 192 214 || within 216 246 || within 248 255.

Fixpoint all_alnum (s : string) : bool :=
  match s with
  | EmptyString => true
  | String c r => is_alnum_char c && all_alnum r
  end.

(** [str.isalnum()]: non-empty and every character alphanumeric. *)
Definition isalnum (s : string) : bool := str_truthy s && all_alnum s.

Definition parse_roles (roles : PyVal) : res (list string) :=
  if negb (truthy roles) || negb (is_str roles) then Raise InvalidInput else
  match roles with
  | PStr s =>
      let role_list := split_comma s in
      match find (fun role => negb (isalnum role)) role_list with
      | Some role => Raise (InvalidRole [role])
      | None => Ok role_list
      end
  | _ => Raise InvalidInput
  end.

Definition lift {A} (r : res A) : M A :=
  match r with Ok a => ret a | Raise e => raise e end.

(** ** Pebble service operations *)

Definition set_svc (b : bool) : M unit :=
  modify_container (fun c => {| files := files c; svc_active := b;
                                svc_defined := svc_defined c |}).

Definition onos_apps (st : Stored) : string := String.concat ", " (apps st).

Definition add_onos_layer : M unit :=
  s <- get ;; env <- ask ;;
  emit (AddLayer (onos_apps (stored s)) (java_opts (config env))) ;;
  modify_container (fun c => {| files := files c; svc_active := svc_active c;
                                svc_defined := true |}).

(** [self.onos_service]: [get_service("onos")] raises [ModelError] while
    the plan has no [onos] service; otherwise the result is read for its
    status. *)
Definition onos_service_active : M bool :=
  s <- get ;;
  if svc_defined (container s) then ret (svc_active (container s)) else raise ModelError.

Definition restart_onos : M unit :=
  active <- onos_service_active ;;
  when active (emit SvcStop ;; set_svc false) ;;
  emit SvcStart ;; set_svc true.

Definition start_onos : M unit :=
  active <- onos_service_active ;;
  if active then raise ServiceAlreadyActive
  else emit SvcStart ;; set_svc true.

Definition stop_onos : M unit :=
  active <- onos_service_active ;;
  if negb active then raise ServiceNotRunning
  else emit SvcStop ;; set_svc false.

(** ** Event handlers and the charm's transition function *)

Inductive Action :=
  | PebbleReady
  | ConfigChanged
  | ListActivatedApps
  | ListAvailableApps
  | ActivateApp (name : string)
  | DeactivateApp (name : string)
  | Restart
  | Start
  | Stop
  | ListRoles
  | AddUser (username password group : string)
  | AddGroup (groupname : string) (roles : PyVal)
  | DeleteUser (username : string)
  | DeleteGroup (groupname : string).

Definition handler_body (a : Action) : M unit :=
  match a with
  | PebbleReady =>
      modify_stored (set_ready true) ;;
      configure ;;
      add_onos_layer ;;
      restart_onos ;;
      modify_stored (set_started true)
  | ConfigChanged => configure
  | ListActivatedApps | ListAvailableApps | ListRoles =>
      _ <- get_available_apps ;; ret tt
  | ActivateApp n => activate_app n
  | DeactivateApp n => deactivate_app n
  | Restart => restart_onos
  | Start => start_onos
  | Stop => stop_onos
  | AddUser u p g => add_user u p g
  | AddGroup g r => roles <- lift (parse_roles r) ;; add_group g roles
  | DeleteUser u => delete_user u
  | DeleteGroup g => delete_group g
  end.

Definition is_lifecycle (a : Action) : bool :=
  match a with PebbleReady | ConfigChanged => true | _ => false end.

Definition is_config_missing (e : Err) : bool :=
  match e with ConfigMissing _ => true | _ => false end.

(** How a dispatch ends: action handlers catch every exception
    ([event.fail]); lifecycle handlers catch [ConfigMissingException]
    ([event.defer]) and let anything else escape the hook, in which case
    the framework does not commit the stored state (the container keeps
    what was pushed). *)
Inductive Outcome := Done | Failed (e : Err) | Deferred (e : Err) | Crashed (e : Err).

Definition run_action (a : Action) (env : Env) (s : St) : St * list Req * Outcome :=
  match handler_body a env s with
  | (s1, o, Ok _) => (s1, o, Done)
  | (s1, o, Raise e) =>
      if negb (is_lifecycle a) then (s1, o, Failed e)
      else if is_config_missing e then (s1, o, Deferred e)
      else ({| stored := stored s; container := container s1 |}, o, Crashed e)
  end.

Definition next_state (a : Action) (env : Env) (s : St) : St :=
  fst (fst (run_action a env s)).

(** [_stored.set_default(...)] at the first [__init__]. *)
Definition init_stored : Stored :=
  {| apps := [SYS_APP]; started := false; ready := false;
     users := []; groups := [] |}.

Inductive reachable : St -> Prop :=
  | reach_init (c : Container) : reachable {| stored := init_stored; container := c |}
  | reach_step (a : Action) (env : Env) (s : St) :
      reachable s -> reachable (next_state a env s).

(** ** Traces of handler invocations *)

Fixpoint run_trace (tr : list (Action * Env)) (s : St) : St :=
  match tr with
  | [] => s
  | (a, env) :: tr' => run_trace tr' (next_state a env s)
  end.

Definition init_state (c : Container) : St :=
  {| stored := init_stored; container := c |}.

(** ** Concrete inputs *)

Definition cfg0 : Config :=
  {| admin_password := Some "karaf"; guest_password := Some "guest";
     enable_guest := false; enable_gui := false; java_opts := "-Xmx2G";
     external_hostname := None |}.

Definition karaf_dir := "apache-karaf-4.2.14".

Definition env0 : Env :=
  {| config := cfg0;
     root_entries := [(karaf_dir, Directory); ("bin", Directory)];
     apps_dir := [SYS_APP; GUI_APP; "org.onosproject.openflow"];
     has_ingress := false |}.

Definition container0 : Container :=
  {| files := [(logging_path karaf_dir, "log4j.rootLogger=INFO")]; svc_active := false;
     svc_defined := false |}.

(** * Proofs *)

(** ** Preservation of a property of the stored state *)

Definition keeps (P : Stored -> Prop) {A} (m : M A) : Prop :=
  forall env s, P (stored s) -> P (stored (fst (fst (m env s)))).

Section Keeps.
Variable P : Stored -> Prop.

Lemma keeps_ret {A} (a : A) : keeps P (ret a).
Proof. intros env s H; exact H. Qed.

Lemma keeps_raise {A} (e : Err) : keeps P (@raise A e).
Proof. intros env s H; exact H. Qed.

Lemma keeps_ask : keeps P ask.
Proof. intros env s H; exact H. Qed.

Lemma keeps_get : keeps P get.
Proof. intros env s H; exact H. Qed.

Lemma keeps_emit r : keeps P (emit r).
Proof. intros env s H; exact H. Qed.

Lemma keeps_modify_container f : keeps P (modify_container f).
Proof. intros env s H; exact H. Qed.

Lemma keeps_modify_stored f :
  (forall st, P st -> P (f st)) -> keeps P (modify_stored f).
Proof. intros Hf env s H; simpl; auto. Qed.

Lemma keeps_bind {A B} (m : M A) (f : A -> M B) :
  keeps P m -> (forall a, keeps P (f a)) -> keeps P (bind m f).
Proof.
  intros Hm Hf env s H; unfold bind.
  specialize (Hm env s H).
  destruct (m env s) as [[s1 o1] [a | e]] eqn:E; simpl in *; auto.
  specialize (Hf a env s1 Hm).
  destruct (f a env s1) as [[s2 o2] r]; simpl in *; auto.
Qed.

Lemma keeps_when b m : keeps P m -> keeps P (when b m).
Proof. destruct b; simpl; auto using keeps_ret. Qed.

Lemma keeps_lift {A} (r : res A) : keeps P (lift r).
Proof. destruct r; [apply keeps_ret | apply keeps_raise]. Qed.
End Keeps.

Create HintDb keeps_db.
#[export] Hint Resolve keeps_ret keeps_raise keeps_ask keeps_get keeps_emit
  keeps_modify_container keeps_when keeps_lift : keeps_db.

Ltac keeps_step :=
  match goal with
  | |- keeps _ (bind _ _) => apply keeps_bind; intros
  | |- keeps _ (when _ _) => apply keeps_when
  | |- keeps _ (if ?b then _ else _) => destruct b
  | |- keeps _ (match ?x with _ => _ end) => destruct x
  | |- keeps _ (modify_stored _) => apply keeps_modify_stored; intros
  | |- _ => solve [eauto with keeps_db]
  end.

Ltac keeps_tac := repeat keeps_step.

(** ** The apps set outside app (de)activation *)

Definition sys_in (st : Stored) : Prop := In SYS_APP (apps st).

Lemma keeps_sys_set_remove name :
  name <> SYS_APP ->
  forall st, sys_in st -> sys_in (set_apps (set_remove name (apps st)) st).
Proof.
  intros Hn st H; unfold sys_in, set_remove in *; simpl.
  apply filter_In; split; auto.
  apply negb_true_iff, String.eqb_neq; congruence.
Qed.

Lemma keeps_sys_set_add name :
  forall st, sys_in st -> sys_in (set_apps (set_add name (apps st)) st).
Proof.
  intros st H; unfold sys_in, set_add in *; simpl.
  destruct (mem name (apps st)); auto.
  apply in_or_app; auto.
Qed.

Lemma keeps_sys_configure_users_and_groups : keeps sys_in configure_users_and_groups.
Proof.
  unfold configure_users_and_groups, get_apache_karaf_folder_path,
    config_admin_password, config_guest_password, update_users, update_groups, push.
  keeps_tac.
Qed.

Lemma keeps_sys_configure_async_logging : keeps sys_in configure_async_logging.
Proof.
  unfold configure_async_logging, get_apache_karaf_folder_path, pull, push.
  keeps_tac.
Qed.

Lemma keeps_sys_activate_app name : keeps sys_in (activate_app name).
Proof.
  unfold activate_app, check_app_exists, get_available_apps, config_admin_password.
  keeps_tac. apply keeps_sys_set_add; assumption.
Qed.

Lemma keeps_sys_deactivate_app name :
  name <> SYS_APP -> keeps sys_in (deactivate_app name).
Proof.
  intros Hn.
  unfold deactivate_app, check_app_exists, get_available_apps, config_admin_password.
  keeps_tac. apply keeps_sys_set_remove; assumption.
Qed.

Lemma GUI_APP_not_SYS_APP : GUI_APP <> SYS_APP.
Proof. discriminate. Qed.

#[export] Hint Resolve keeps_sys_configure_users_and_groups
  keeps_sys_configure_async_logging keeps_sys_activate_app
  keeps_sys_deactivate_app GUI_APP_not_SYS_APP : keeps_db.

Lemma keeps_sys_configure : keeps sys_in configure.
Proof.
  unfold configure, check_config, configure_gui_app, configure_ingress.
  keeps_tac.
Qed.

#[export] Hint Resolve keeps_sys_configure : keeps_db.

Lemma keeps_sys_handler a :
  a <> DeactivateApp SYS_APP -> keeps sys_in (handler_body a).
Proof.
  intros Ha; destruct a; simpl;
    unfold add_onos_layer, restart_onos, start_onos, stop_onos, onos_service_active, set_svc,
      add_user, add_group, delete_user, delete_group, update_users,
      update_groups, get_available_apps;
    keeps_tac.
  apply keeps_sys_deactivate_app; congruence.
Qed.

Lemma next_state_keeps_sys a env s :
  a <> DeactivateApp SYS_APP -> sys_in (stored s) -> sys_in (stored (next_state a env s)).
Proof.
  intros Ha Hs; unfold next_state, run_action.
  pose proof (keeps_sys_handler a Ha env s Hs) as H.
  destruct (handler_body a env s) as [[s1 o] [u | e]]; simpl in *; auto.
  destruct (is_lifecycle a), (is_config_missing e); simpl; auto.
Qed.

Lemma run_trace_keeps_sys tr s :
  ~ In (DeactivateApp SYS_APP) (map fst tr) ->
  sys_in (stored s) -> sys_in (stored (run_trace tr s)).
Proof.
  revert s; induction tr as [| [a env] tr IH]; intros s Hnot Hs; simpl in *; auto.
  apply IH; [tauto |].
  apply next_state_keeps_sys; auto.
Qed.

(** ** C1: the mandatory system application *)

(** C1 (amended). The mandatory application [org.onosproject.drivers] is in
    the apps set seeded by the first [__init__], and it is still a member
    after any sequence of handler invocations (lifecycle events and actions,
    each under any environment) that contains no [deactivate-app] with that
    very identifier. [deactivate-app] with that identifier is not guarded:
    from any state, when the catalog lists it, the action leaves it out of
    the apps set (it removes it, or it was not there and the action fails
    with [NotActive]), whether or not the remote call succeeds. *)
Theorem sys_app_member_without_its_deactivation (tr : list (Action * Env)) (c : Container) :
  (~ In (DeactivateApp SYS_APP) (map fst tr) ->
   In SYS_APP (apps (stored (run_trace tr (init_state c))))) /\
  (forall env s, mem SYS_APP (apps_dir env) = true ->
   ~ In SYS_APP (apps (stored (next_state (DeactivateApp SYS_APP) env s)))).
Proof.
  split.
  - intros Hnot.
    apply (run_trace_keeps_sys tr (init_state c) Hnot).
    unfold sys_in; simpl; auto.
  - intros env s Hc.
    unfold next_state, run_action; cbn [handler_body].
    cbv [deactivate_app check_app_exists get_available_apps config_admin_password
         bind ask get ret raise when modify_stored emit].
    rewrite Hc.
    destruct (mem SYS_APP (apps (stored s))) eqn:Ha; cbn [negb].
    + cbn; destruct (started (stored s)); [destruct (admin_password (config env)) |];
        cbn; intros H; apply filter_In in H; destruct H as [_ H];
        rewrite String.eqb_refl in H; discriminate.
    + cbn; intros H.
      assert (Hm : mem SYS_APP (apps (stored s)) = true)
        by (unfold mem; apply existsb_exists; exists SYS_APP; split;
            [exact H | apply String.eqb_refl]).
      congruence.
Qed.

Lemma sys_app_member_without_its_deactivation_witness :
  ~ In (DeactivateApp SYS_APP)
      (map fst [(ConfigChanged, env0); (ActivateApp "org.onosproject.openflow", env0)]) /\
  In SYS_APP (apps (stored (run_trace
      [(ConfigChanged, env0); (ActivateApp "org.onosproject.openflow", env0)]
      (init_state container0)))).
Proof.
  split.
  - simpl; intros [H | [H | []]]; discriminate.
  - apply (proj1 (sys_app_member_without_its_deactivation _ container0)).
    simpl; intros [H | [H | []]]; discriminate.
Defined.

(** C1 (counterexample). The claim that the system application stays in the
    set in every reachable state fails: from the initial state,
    [deactivate-app org.onosproject.drivers] with the identifier in the
    catalog removes it and leaves the set empty. *)
Lemma sys_app_removed_by_deactivate :
  ~ (forall s, reachable s -> In SYS_APP (apps (stored s))).
Proof.
  intros H.
  specialize (H _ (reach_step (DeactivateApp SYS_APP) env0 _ (reach_init container0))).
  vm_compute in H. exact H.
Qed.

(** ** Inverting a successful run *)

Lemma bind_ok {A B} (m : M A) (f : A -> M B) env s s' o b :
  bind m f env s = (s', o, Ok b) ->
  exists s1 o1 o2 a, m env s = (s1, o1, Ok a) /\ f a env s1 = (s', o2, Ok b).
Proof.
  unfold bind.
  destruct (m env s) as [[s1 o1] [a | e]]; [| discriminate].
  destruct (f a env s1) as [[s2 o2] r] eqn:E.
  intros H; inversion H; subst; eauto 7.
Qed.

Lemma keeps_ok (P : Stored -> Prop) {A} (m : M A) env s s' o a :
  keeps P m -> m env s = (s', o, Ok a) -> P (stored s) -> P (stored s').
Proof.
  intros Hk E Hs; specialize (Hk env s Hs); rewrite E in Hk; exact Hk.
Qed.

Ltac ok_inv :=
  repeat match goal with
  | H : bind _ _ _ _ = (_, _, Ok _) |- _ =>
      let s1 := fresh "s" in let o1 := fresh "o" in let o2 := fresh "o" in
      let a := fresh "a" in let H1 := fresh "H" in let H2 := fresh "H" in
      apply bind_ok in H; destruct H as (s1 & o1 & o2 & a & H1 & H2)
  | H : when ?b _ _ _ = (_, _, Ok _) |- _ =>
      let Eb := fresh "Eb" in destruct b eqn:Eb; cbn [when] in H
  | H : (if ?b then _ else _) _ _ = (_, _, Ok _) |- _ =>
      let Eb := fresh "Eb" in destruct b eqn:Eb
  | H : (match ?x with _ => _ end) _ _ = (_, _, Ok _) |- _ =>
      let Ex := fresh "Ex" in destruct x eqn:Ex
  | H : ret _ _ _ = _ |- _ => unfold ret in H; inversion H; subst; clear H
  | H : raise _ _ _ = (_, _, Ok _) |- _ => discriminate H
  | H : get _ _ = _ |- _ => unfold get in H; inversion H; subst; clear H
  | H : ask _ _ = _ |- _ => unfold ask in H; inversion H; subst; clear H
  | H : emit _ _ _ = _ |- _ => unfold emit in H; inversion H; subst; clear H
  | H : modify_stored _ _ _ = _ |- _ => unfold modify_stored in H; inversion H; subst; clear H
  | H : modify_container _ _ _ = _ |- _ => unfold modify_container in H; inversion H; subst; clear H
  end.

(** ** Steps of the pass that leave the credential store alone *)

Definition ug_eq (U : dict UserData) (G : dict (list string)) (st : Stored) : Prop :=
  users st = U /\ groups st = G.

Ltac keeps_ug :=
  repeat (keeps_step || (apply keeps_modify_stored; intros; unfold ug_eq in *; simpl; assumption)).

Lemma keeps_ug_check_config U G : keeps (ug_eq U G) check_config.
Proof. unfold check_config; keeps_ug. Qed.

Lemma keeps_ug_activate_app U G n : keeps (ug_eq U G) (activate_app n).
Proof.
  unfold activate_app, check_app_exists, get_available_apps, config_admin_password; keeps_ug.
Qed.

Lemma keeps_ug_deactivate_app U G n : keeps (ug_eq U G) (deactivate_app n).
Proof.
  unfold deactivate_app, check_app_exists, get_available_apps, config_admin_password; keeps_ug.
Qed.

#[export] Hint Resolve keeps_ug_activate_app keeps_ug_deactivate_app : keeps_db.

Lemma keeps_ug_configure_gui_app U G : keeps (ug_eq U G) configure_gui_app.
Proof. unfold configure_gui_app; keeps_ug. Qed.

Lemma keeps_ug_configure_ingress U G : keeps (ug_eq U G) configure_ingress.
Proof. unfold configure_ingress; keeps_ug. Qed.

Lemma keeps_ug_configure_async_logging U G : keeps (ug_eq U G) configure_async_logging.
Proof.
  unfold configure_async_logging, get_apache_karaf_folder_path, pull, push; keeps_ug.
Qed.

(** A successful pass changes the credential store only through its
    users/groups step. *)
Lemma configure_ok_ug env s s' o :
  configure env s = (s', o, Ok tt) ->
  exists sa sb o', ug_eq (users (stored s)) (groups (stored s)) (stored sa) /\
    configure_users_and_groups env sa = (sb, o', Ok tt) /\
    ug_eq (users (stored sb)) (groups (stored sb)) (stored s').
Proof.
  unfold configure; intros H.
  apply bind_ok in H; destruct H as (s1 & o1 & o2 & a1 & H1 & H).
  apply bind_ok in H; destruct H as (s2 & o3 & o4 & a2 & H2 & H).
  apply bind_ok in H; destruct H as (s3 & o5 & o6 & a3 & H3 & H).
  apply bind_ok in H; destruct H as (s4 & o7 & o8 & a4 & H4 & H5).
  destruct a3.
  exists s2, s3, o5; split; [| split; [exact H3 |]].
  - set (P := ug_eq (users (stored s)) (groups (stored s))).
    apply (keeps_ok P _ env s1 s2 o3 a2 (keeps_ug_configure_gui_app _ _) H2).
    apply (keeps_ok P _ env s s1 o1 a1 (keeps_ug_check_config _ _) H1).
    split; reflexivity.
  - set (P := ug_eq (users (stored s3)) (groups (stored s3))).
    apply (keeps_ok P _ env s4 s' o8 tt (keeps_ug_configure_async_logging _ _) H5).
    apply (keeps_ok P _ env s3 s4 o7 a4 (keeps_ug_configure_ingress _ _) H4).
    split; reflexivity.
Qed.

Ltac cug_unfold H :=
  unfold configure_users_and_groups, get_apache_karaf_folder_path,
    config_admin_password, config_guest_password, update_users, update_groups, push in H.

(** ** C3: toggling [enable-guest] *)

Lemma cug_first_pass env s s' o :
  users (stored s) = [] -> groups (stored s) = [] -> enable_guest (config env) = false ->
  configure_users_and_groups env s = (s', o, Ok tt) ->
  exists pw, admin_password (config env) = Some pw /\
    users (stored s') = admin_user pw /\ groups (stored s') = DEFAULT_GROUPS.
Proof.
  intros HU HG Hg H; cug_unfold H.
  ok_inv; simpl in *.
  all: rewrite ?HU, ?HG, ?Hg in *; simpl in *; try discriminate.
  all: eexists; split; [eassumption | split; reflexivity].
Qed.

Lemma cug_guest_pass env s s' o pw :
  users (stored s) = admin_user pw -> groups (stored s) = DEFAULT_GROUPS ->
  enable_guest (config env) = true ->
  configure_users_and_groups env s = (s', o, Ok tt) ->
  exists gpw, guest_password (config env) = Some gpw /\
    users (stored s') = admin_user pw ++ guest_user gpw /\
    groups (stored s') = DEFAULT_GROUPS.
Proof.
  intros HU HG Hg H; cug_unfold H.
  ok_inv; simpl in *.
  all: rewrite ?HU, ?HG, ?Hg in *; simpl in *; try discriminate.
  all: eexists; split; [eassumption | split; reflexivity].
Qed.

(** C3 (amended). Start from an empty credential store. After a successful
    reconciliation pass with [enable-guest] false, the guest user is absent
    and the admin user (with the configured admin password) is the only
    user, but both default groups are stored, the guest group included:
    [DEFAULT_GROUPS] is seeded whatever [enable-guest] says. A following
    successful pass with [enable-guest] true appends exactly the guest user
    (with the configured guest password) and leaves the admin user and the
    groups as they were. *)
Theorem guest_toggle_adds_guest_user (env1 env2 : Env) (s0 s1 s2 : St) (o1 o2 : list Req) :
  users (stored s0) = [] -> groups (stored s0) = [] ->
  enable_guest (config env1) = false ->
  configure env1 s0 = (s1, o1, Ok tt) ->
  enable_guest (config env2) = true ->
  configure env2 s1 = (s2, o2, Ok tt) ->
  dict_mem GUEST_USERNAME (users (stored s1)) = false /\
  dict_mem GUEST_GROUP_NAME (groups (stored s1)) = true /\
  (exists pw gpw,
     users (stored s1) = admin_user pw /\
     users (stored s2) = users (stored s1) ++ guest_user gpw /\
     guest_password (config env2) = Some gpw) /\
  groups (stored s1) = DEFAULT_GROUPS /\
  groups (stored s2) = groups (stored s1).
Proof.
  intros HU HG Hg1 H1 Hg2 H2.
  destruct (configure_ok_ug _ _ _ _ H1) as (sa & sb & o' & [HaU HaG] & Hcug & [HbU HbG]).
  rewrite HU in HaU; rewrite HG in HaG.
  destruct (cug_first_pass _ _ _ _ HaU HaG Hg1 Hcug) as (pw & _ & HU1 & HG1).
  rewrite HU1 in HbU; rewrite HG1 in HbG.
  destruct (configure_ok_ug _ _ _ _ H2) as (sc & sd & o'' & [HcU HcG] & Hcug2 & [HdU HdG]).
  rewrite HbU in HcU; rewrite HbG in HcG.
  destruct (cug_guest_pass _ _ _ _ _ HcU HcG Hg2 Hcug2) as (gpw & Hgpw & HU2 & HG2).
  rewrite HU2 in HdU; rewrite HG2 in HdG.
  rewrite HbU, HbG, HdU, HdG.
  repeat split; try reflexivity.
  exists pw, gpw; repeat split; auto.
Qed.

Definition env_guest : Env :=
  {| config := {| admin_password := Some "karaf"; guest_password := Some "guest";
                  enable_guest := true; enable_gui := false; java_opts := "-Xmx2G";
                  external_hostname := None |};
     root_entries := root_entries env0; apps_dir := apps_dir env0;
     has_ingress := false |}.

Definition pass1 := configure env0 (init_state container0).
Definition pass2 := configure env_guest (fst (fst pass1)).

Lemma guest_toggle_adds_guest_user_witness :
  let s1 := fst (fst pass1) in
  let s2 := fst (fst pass2) in
  dict_mem GUEST_USERNAME (users (stored s1)) = false /\
  dict_mem GUEST_GROUP_NAME (groups (stored s1)) = true /\
  (exists pw gpw,
     users (stored s1) = admin_user pw /\
     users (stored s2) = users (stored s1) ++ guest_user gpw /\
     guest_password (config env_guest) = Some gpw) /\
  groups (stored s1) = DEFAULT_GROUPS /\
  groups (stored s2) = groups (stored s1).
Proof.
  apply (guest_toggle_adds_guest_user env0 env_guest (init_state container0)
           (fst (fst pass1)) (fst (fst pass2)) (snd (fst pass1)) (snd (fst pass2)));
    vm_compute; reflexivity.
Defined.

(** C3 (counterexample). After a first pass with [enable-guest] false the
    guest group is already in the store. *)
Lemma guest_group_seeded_without_guest :
  enable_guest (config env0) = false /\
  snd pass1 = Ok tt /\
  dict_mem GUEST_GROUP_NAME (groups (stored (fst (fst pass1)))) = true.
Proof. vm_compute. repeat split. Qed.

(** ** C4: reserved usernames *)

Lemma bind_get {B} (f : St -> M B) env s : bind get f env s = f s env s.
Proof. unfold bind, get; simpl. destruct (f s env s) as [[s2 o2] r]; reflexivity. Qed.

Lemma bind_ask {B} (f : Env -> M B) env s : bind ask f env s = f env env s.
Proof. unfold bind, ask; simpl. destruct (f env env s) as [[s2 o2] r]; reflexivity. Qed.

(** C4 (amended). Once the admin user is stored: [add_user "admin" p g]
    fails with [DuplicateUser] when [g] is an existing group and with
    [UnknownGroup] otherwise (the group is checked first);
    [delete_user "admin"] fails with [ReservedIdentifier]. The guest name
    can be neither added nor deleted either, whether stored or not. In every
    one of these calls the whole state (users map included) is unchanged
    and nothing is sent. *)
Theorem reserved_users_protected (env : Env) (s : St) (p g : string) :
  dict_mem ADMIN_USERNAME (users (stored s)) = true ->
  add_user ADMIN_USERNAME p g env s =
    (s, [], Raise (if dict_mem g (groups (stored s))
                   then DuplicateUser ADMIN_USERNAME else UnknownGroup g)) /\
  delete_user ADMIN_USERNAME env s = (s, [], Raise (ReservedIdentifier ADMIN_USERNAME)) /\
  (exists e, add_user GUEST_USERNAME p g env s = (s, [], Raise e)) /\
  (exists e, delete_user GUEST_USERNAME env s = (s, [], Raise e)).
Proof.
  intros Hadm.
  unfold add_user, delete_user; rewrite !bind_get, Hadm.
  destruct (dict_mem g (groups (stored s))), (dict_mem GUEST_USERNAME (users (stored s)));
    repeat split; eexists; reflexivity.
Qed.

Definition seeded := fst (fst pass1).

Lemma reserved_users_protected_witness :
  dict_mem ADMIN_USERNAME (users (stored seeded)) = true /\
  add_user ADMIN_USERNAME "x" ADMIN_GROUP_NAME env0 seeded =
    (seeded, [], Raise (DuplicateUser ADMIN_USERNAME)).
Proof.
  assert (H : dict_mem ADMIN_USERNAME (users (stored seeded)) = true) by (vm_compute; reflexivity).
  split; [exact H |].
  destruct (reserved_users_protected env0 seeded "x" ADMIN_GROUP_NAME H) as [E _].
  rewrite E. vm_compute. reflexivity.
Defined.

(** C4 (counterexample). In the seeded state, [add_user "admin"] with a group
    that does not exist fails with [UnknownGroup], not [DuplicateUser]. *)
Lemma add_admin_unknown_group :
  dict_mem ADMIN_USERNAME (users (stored seeded)) = true /\
  snd (add_user ADMIN_USERNAME "x" "nogroup" env0 seeded) = Raise (UnknownGroup "nogroup").
Proof. vm_compute. split; reflexivity. Qed.

(** ** C5: applications missing from the catalog *)

(** C5. For an identifier that is not among the files of the catalog
    directory, [activate_app] and [deactivate_app] both raise
    [UnknownApplication] before anything else: the state (the apps set
    included) is unchanged and no request is sent. *)
Theorem unknown_app_rejected (env : Env) (s : St) (name : string) :
  mem name (apps_dir env) = false ->
  activate_app name env s = (s, [], Raise UnknownApplication) /\
  deactivate_app name env s = (s, [], Raise UnknownApplication).
Proof.
  intros H.
  cbv [activate_app deactivate_app check_app_exists get_available_apps bind ask ret raise].
  rewrite H. split; reflexivity.
Qed.

Lemma unknown_app_rejected_witness :
  mem "org.onosproject.bogus" (apps_dir env0) = false /\
  activate_app "org.onosproject.bogus" env0 (init_state container0) =
    (init_state container0, [], Raise UnknownApplication).
Proof.
  assert (H : mem "org.onosproject.bogus" (apps_dir env0) = false) by reflexivity.
  split; [exact H | exact (proj1 (unknown_app_rejected env0 _ _ H))].
Defined.

(** ** C6: unknown roles in [add_group] *)

Definition non_existing_roles (roles : list string) : list string :=
  filter (fun role => negb (mem role ALL_ROLES)) roles.

(** C6 (amended). For a group name other than the two reserved ones and a
    role list with at least one role outside [ALL_ROLES], [add_group] raises
    [InvalidRole] carrying the list of all such roles, in their order in
    the input: every absent role is in it and nothing else is. The state
    (the groups map included) is unchanged and nothing is sent. For a
    reserved group name, whatever the roles, the name check comes first:
    [add_group] raises [ReservedIdentifier], the state unchanged and
    nothing sent. *)
Theorem add_group_invalid_roles (env : Env) (s : St) :
  (forall (groupname : string) (roles : list string),
   mem groupname [ADMIN_GROUP_NAME; GUEST_GROUP_NAME] = false ->
   existsb (fun role => negb (mem role ALL_ROLES)) roles = true ->
   add_group groupname roles env s = (s, [], Raise (InvalidRole (non_existing_roles roles))) /\
   (forall r, In r (non_existing_roles roles) <-> In r roles /\ mem r ALL_ROLES = false)) /\
  (forall (groupname : string) (roles : list string),
   mem groupname [ADMIN_GROUP_NAME; GUEST_GROUP_NAME] = true ->
   add_group groupname roles env s = (s, [], Raise (ReservedIdentifier groupname))).
Proof.
  split; [| intros groupname roles Hres; unfold add_group; rewrite Hres; reflexivity].
  intros groupname roles Hres Hex; split.
  - unfold add_group; rewrite Hres.
    fold (non_existing_roles roles).
    destruct (non_existing_roles roles) eqn:E; [| reflexivity].
    exfalso.
    apply existsb_exists in Hex; destruct Hex as (r & Hin & Hr).
    assert (Hf : In r (non_existing_roles roles)) by (apply filter_In; auto).
    rewrite E in Hf; exact Hf.
  - intros r; unfold non_existing_roles; rewrite filter_In, negb_true_iff; tauto.
Qed.

Lemma add_group_invalid_roles_witness :
  mem "qa" [ADMIN_GROUP_NAME; GUEST_GROUP_NAME] = false /\
  existsb (fun role => negb (mem role ALL_ROLES)) ["viewer"; "bogus"] = true /\
  add_group "qa" ["viewer"; "bogus"] env0 seeded = (seeded, [], Raise (InvalidRole ["bogus"])) /\
  add_group GUEST_GROUP_NAME ["viewer"; "bogus"] env0 seeded =
    (seeded, [], Raise (ReservedIdentifier GUEST_GROUP_NAME)).
Proof.
  assert (H1 : mem "qa" [ADMIN_GROUP_NAME; GUEST_GROUP_NAME] = false) by reflexivity.
  assert (H2 : existsb (fun role => negb (mem role ALL_ROLES)) ["viewer"; "bogus"] = true)
    by reflexivity.
  split; [exact H1 | split; [exact H2 | split]].
  - exact (proj1 (proj1 (add_group_invalid_roles env0 seeded) "qa" ["viewer"; "bogus"] H1 H2)).
  - apply (proj2 (add_group_invalid_roles env0 seeded)); reflexivity.
Defined.

(** C6 (counterexample). With a reserved group name the name check comes
    first: the error is [ReservedIdentifier], not [InvalidRole]. *)
Lemma add_reserved_group_bad_role :
  snd (add_group ADMIN_GROUP_NAME ["bogus"] env0 seeded) =
    Raise (ReservedIdentifier ADMIN_GROUP_NAME).
Proof. vm_compute. reflexivity. Qed.

(** ** C7: the async-logging augmentation *)

Lemma prefix_refl t : String.prefix t t = true.
Proof.
  induction t as [| a t IH]; simpl; auto.
  destruct (ascii_dec a a); congruence.
Qed.

Lemma contains_app_r c t : contains t (c ++ t) = true.
Proof.
  induction c as [| a c IH]; simpl.
  - destruct t as [| a t]; [reflexivity |].
    cbn [contains]. rewrite prefix_refl. reflexivity.
  - rewrite IH, orb_true_r; reflexivity.
Qed.

Lemma dict_get_replace {V} k (v : V) d :
  dict_mem k d = true ->
  dict_get k (map (fun p => if String.eqb (fst p) k then (k, v) else p) d) = Some v.
Proof.
  induction d as [| [k' v'] d IH]; simpl; [discriminate |].
  destruct (String.eqb k' k) eqn:E; simpl.
  - rewrite String.eqb_refl; reflexivity.
  - rewrite E; exact IH.
Qed.

Lemma dict_get_snoc {V} k (v : V) d :
  dict_mem k d = false -> dict_get k (d ++ [(k, v)]) = Some v.
Proof.
  induction d as [| [k' v'] d IH]; simpl.
  - rewrite String.eqb_refl; reflexivity.
  - intros H; apply orb_false_iff in H; destruct H as [H1 H2].
    rewrite H1; exact (IH H2).
Qed.

Lemma dict_get_set {V} k (v : V) d : dict_get k (dict_set k v d) = Some v.
Proof.
  unfold dict_set; destruct (dict_mem k d) eqn:E.
  - apply dict_get_replace; exact E.
  - apply dict_get_snoc; exact E.
Qed.

Lemma async_logging_twice (env : Env) (s : St) :
  let s1 := fst (fst (configure_async_logging env s)) in
  fst (fst (configure_async_logging env s1)) = s1.
Proof.
  cbv [configure_async_logging get_apache_karaf_folder_path pull push bind ask get
       ret raise when modify_container].
  destruct (karaf_dirs env) as [| f l]; [reflexivity |].
  destruct (ready (stored s) && str_truthy f) eqn:R; [| simpl; rewrite R; reflexivity].
  destruct (dict_get (logging_path f) (files (container s))) as [c |] eqn:F;
    simpl; rewrite ?R, ?F.
  - destruct (contains ASYNC_LOGGING c) eqn:C; simpl; rewrite ?R, ?F; simpl.
    + rewrite C; reflexivity.
    + rewrite dict_get_set; simpl; rewrite contains_app_r; reflexivity.
  - reflexivity.
Qed.

(** C7. If the pax-logging file of the discovered karaf directory already
    contains [ASYNC_LOGGING], the logging step leaves the whole state, that
    file's content included, unchanged. And for every environment and
    state, running the step a second time on the state the first run left
    gives that same state: the augmentation is applied at most once. *)
Theorem async_logging_idempotent (env : Env) (s : St) (f : string) (l : list string) (c : string) :
  karaf_dirs env = f :: l ->
  dict_get (logging_path f) (files (container s)) = Some c ->
  contains ASYNC_LOGGING c = true ->
  fst (fst (configure_async_logging env s)) = s /\
  (forall env' s',
     let s1 := fst (fst (configure_async_logging env' s')) in
     fst (fst (configure_async_logging env' s1)) = s1).
Proof.
  intros Hd Hf Hc; split; [| exact async_logging_twice].
  cbv [configure_async_logging get_apache_karaf_folder_path pull push bind ask get
       ret raise when modify_container].
  rewrite Hd.
  destruct (ready (stored s) && str_truthy f); simpl; [| reflexivity].
  rewrite Hf; simpl; rewrite Hc; reflexivity.
Qed.

Definition container_logged : Container :=
  {| files := [(logging_path karaf_dir, String.append "log4j.rootLogger=INFO" ASYNC_LOGGING)];
     svc_active := false; svc_defined := false |}.

Definition st_logged : St :=
  {| stored := set_ready true init_stored; container := container_logged |}.

Lemma async_logging_idempotent_witness :
  fst (fst (configure_async_logging env0 st_logged)) = st_logged.
Proof.
  refine (proj1 (async_logging_idempotent env0 st_logged karaf_dir []
                   (String.append "log4j.rootLogger=INFO" ASYNC_LOGGING)%string _ _ _));
    vm_compute; reflexivity.
Defined.

(** ** C8: role-list parsing *)

Lemma find_none_forallb {A} (f : A -> bool) l :
  find f l = None <-> forallb (fun x => negb (f x)) l = true.
Proof.
  induction l as [| x l IH]; simpl; [tauto |].
  destruct (f x); simpl; [split; discriminate | exact IH].
Qed.

(** C8. [_parse_roles] maps ["viewer,admin"] to [["viewer"; "admin"]]; it
    raises [InvalidInput] on the empty string and on every value that is
    not a string; on a non-empty string with a token (of the split at
    commas) that is not alphanumeric it raises [InvalidRole] naming the
    first such token; on a non-empty string whose tokens are all
    alphanumeric it returns the tokens, whether or not they are roles of
    [ALL_ROLES] (the check is syntactic only). *)
Theorem parse_roles_spec :
  parse_roles (PStr "viewer,admin") = Ok ["viewer"; "admin"] /\
  (forall v, v = PStr EmptyString \/ is_str v = false -> parse_roles v = Raise InvalidInput) /\
  (forall s, s <> EmptyString ->
     (exists t, In t (split_comma s) /\ isalnum t = false) ->
     exists t, parse_roles (PStr s) = Raise (InvalidRole [t]) /\
               In t (split_comma s) /\ isalnum t = false) /\
  (forall s, s <> EmptyString ->
     forallb isalnum (split_comma s) = true ->
     parse_roles (PStr s) = Ok (split_comma s)).
Proof.
  split; [reflexivity |].
  split; [| split].
  - intros v [-> | Hv]; [reflexivity |].
    destruct v; try discriminate; unfold parse_roles; simpl;
      rewrite ?orb_true_r; reflexivity.
  - intros s Hs [t [Hin Ht]].
    unfold parse_roles; simpl.
    assert (Hne : str_truthy s = true)
      by (unfold str_truthy; apply negb_true_iff, String.eqb_neq; exact Hs).
    rewrite Hne; simpl.
    destruct (find (fun role => negb (isalnum role)) (split_comma s)) as [r |] eqn:Ef.
    + apply find_some in Ef; destruct Ef as [Hr Hnr].
      exists r; repeat split; auto. apply negb_true_iff; exact Hnr.
    + apply find_none_forallb in Ef.
      rewrite forallb_forall in Ef. specialize (Ef t Hin).
      rewrite Ht in Ef; discriminate.
  - intros s Hs Hall.
    unfold parse_roles; simpl.
    assert (Hne : str_truthy s = true)
      by (unfold str_truthy; apply negb_true_iff, String.eqb_neq; exact Hs).
    rewrite Hne; simpl.
    replace (find (fun role => negb (isalnum role)) (split_comma s)) with (@None string);
      [reflexivity |].
    symmetry; apply find_none_forallb.
    rewrite forallb_forall in *; intros x Hx; rewrite Hall; auto.
Qed.

Lemma parse_roles_spec_witness :
  parse_roles (PStr EmptyString) = Raise InvalidInput /\
  parse_roles PNone = Raise InvalidInput /\
  (exists t, parse_roles (PStr "vi ewer") = Raise (InvalidRole [t]) /\
             In t (split_comma "vi ewer") /\ isalnum t = false) /\
  parse_roles (PStr "viewer,bogus") = Ok ["viewer"; "bogus"].
Proof.
  destruct parse_roles_spec as (_ & H1 & H2 & H3).
  split; [apply H1; left; reflexivity |].
  split; [apply H1; right; reflexivity |].
  split.
  - apply H2; [discriminate | exists "vi ewer"; split; [left; reflexivity | reflexivity]].
  - apply (H3 "viewer,bogus"); [discriminate | reflexivity].
Defined.

Example parse_vi_ewer : parse_roles (PStr "vi ewer") = Raise (InvalidRole ["vi ewer"]).
Proof. reflexivity. Qed.

(** [str.isalnum()] is not ASCII-only: ["é"] (U+00E9) and ["vi²"] are
    accepted as tokens, ["a©b"] (U+00A9 is a symbol) is not. *)
Example parse_latin1_letters :
  parse_roles (PStr (String "233"%char EmptyString)) = Ok [String "233"%char EmptyString] /\
  parse_roles (PStr (String.append "vi" (String "178"%char EmptyString))) =
    Ok [String.append "vi" (String "178"%char EmptyString)] /\
  parse_roles (PStr (String "a" (String "169"%char "b"))) =
    Raise (InvalidRole [String "a" (String "169"%char "b")]).
Proof. repeat split; reflexivity. Qed.

(** ** C9: the credentials renderer *)

Local Open Scope string_scope.

Lemma sappend_assoc (a b c : string) : (a ++ b) ++ c = a ++ (b ++ c).
Proof. induction a as [| x a IH]; simpl; [reflexivity | rewrite IH; reflexivity]. Qed.

Lemma prefix_app t b : String.prefix t (t ++ b) = true.
Proof.
  induction t as [| a t IH]; simpl; [destruct b; reflexivity |].
  destruct (ascii_dec a a); [exact IH | congruence].
Qed.

Lemma prefix_app_mono t x b : String.prefix t x = true -> String.prefix t (x ++ b) = true.
Proof.
  revert x; induction t as [| a t IH]; intros x H; simpl; [destruct (x ++ b); reflexivity |].
  destruct x as [| c x]; simpl in H; [discriminate |].
  simpl; destruct (ascii_dec a c); [apply IH; exact H | discriminate].
Qed.

Lemma contains_head t b : contains t (t ++ b) = true.
Proof.
  destruct (t ++ b) as [| c x] eqn:E.
  - destruct t; [reflexivity | discriminate].
  - cbn [contains]. rewrite <- E, prefix_app. reflexivity.
Qed.

Lemma contains_app_left a c t : contains t c = true -> contains t (a ++ c) = true.
Proof.
  intros H; induction a as [| x a IH]; simpl; [exact H |].
  rewrite IH, orb_true_r; reflexivity.
Qed.

Lemma contains_empty t : contains t EmptyString = true -> t = EmptyString.
Proof. destruct t; simpl; [reflexivity | discriminate]. Qed.

Lemma contains_app_right c b t : contains t c = true -> contains t (c ++ b) = true.
Proof.
  induction c as [| x c IH]; intros H.
  - apply contains_empty in H; subst; destruct b; reflexivity.
  - cbn [contains] in H.
    change (String x c ++ b) with (String x (c ++ b)); cbn [contains].
    apply orb_true_iff in H; destruct H as [H | H].
    + rewrite (prefix_app_mono _ _ b H : String.prefix t (String x (c ++ b)) = true).
      reflexivity.
    + rewrite (IH H), orb_true_r; reflexivity.
Qed.

Lemma render_lines_adjacent {A} (line : A -> string) pre x y post :
  contains (NL ++ line x ++ NL ++ line y ++ NL)
           (NL ++ render_lines line (pre ++ x :: y :: post)) = true.
Proof.
  induction pre as [| z pre IH]; cbn [render_lines List.app].
  - replace (NL ++ line x ++ NL ++ line y ++ NL ++ render_lines line post)
      with ((NL ++ line x ++ NL ++ line y ++ NL) ++ render_lines line post)
      by (rewrite !sappend_assoc; reflexivity).
    apply contains_head.
  - replace (NL ++ line z ++ NL ++ render_lines line (pre ++ x :: y :: post))
      with ((NL ++ line z) ++ (NL ++ render_lines line (pre ++ x :: y :: post)))
      by (rewrite !sappend_assoc; reflexivity).
    apply contains_app_left; exact IH.
Qed.

Lemma render_lines_member {A} (line : A -> string) x l :
  In x l -> contains (NL ++ line x ++ NL) (NL ++ render_lines line l) = true.
Proof.
  induction l as [| z l IH]; intros Hin; [destruct Hin |].
  destruct Hin as [-> | Hin].
  - cbn [render_lines].
    replace (NL ++ line x ++ NL ++ render_lines line l)
      with ((NL ++ line x ++ NL) ++ render_lines line l)
      by (rewrite !sappend_assoc; reflexivity).
    apply contains_head.
  - cbn [render_lines].
    replace (NL ++ line z ++ NL ++ render_lines line l)
      with ((NL ++ line z) ++ (NL ++ render_lines line l))
      by (rewrite !sappend_assoc; reflexivity).
    apply contains_app_left; exact (IH Hin).
Qed.

Lemma sappend_nil_r (a : string) : a ++ EmptyString = a.
Proof. induction a as [| x a IH]; simpl; [reflexivity | rewrite IH; reflexivity]. Qed.

Fixpoint sep_each (sep : string) (l : list string) : string :=
  match l with
  | [] => EmptyString
  | x :: r => sep ++ x ++ sep_each sep r
  end.

Lemma concat_sep_each sep r rs : String.concat sep (r :: rs) = r ++ sep_each sep rs.
Proof.
  revert r; induction rs as [| r' rs IH]; intros r.
  - simpl; rewrite sappend_nil_r; reflexivity.
  - change (String.concat sep (r :: r' :: rs)) with (r ++ sep ++ String.concat sep (r' :: rs)).
    rewrite IH; reflexivity.
Qed.

(** C9. For every users map and groups map, the rendered text contains, as
    a whole line (between newlines), [username = password,_g_:groupname]
    for each user and [_g_\:groupname = roles] for each group, the roles
    joined with [","]: the first role, then [","] before each later one,
    nothing after the last. Lines follow the maps' iteration order: two
    entries adjacent in a map give adjacent lines in that order. *)
Theorem render_spec (us : dict UserData) (gs : dict (list string)) :
  (forall u, In u us ->
     contains (NL ++ fst u ++ " = " ++ u_password (snd u) ++ ",_g_:" ++ u_group (snd u) ++ NL)
              (render us gs) = true) /\
  (forall g, In g gs ->
     contains (NL ++ "_g_\:" ++ fst g ++ " = " ++ String.concat "," (snd g) ++ NL)
              (render us gs) = true) /\
  (forall pre u1 u2 post, us = (pre ++ u1 :: u2 :: post)%list ->
     contains (NL ++ user_line u1 ++ NL ++ user_line u2 ++ NL) (render us gs) = true) /\
  (forall pre g1 g2 post, gs = (pre ++ g1 :: g2 :: post)%list ->
     contains (NL ++ group_line g1 ++ NL ++ group_line g2 ++ NL) (render us gs) = true) /\
  (forall r rs, String.concat "," (r :: rs) = r ++ sep_each "," rs).
Proof.
  assert (Hsplit : render us gs =
            (NL ++ render_lines user_line us ++ NL) ++ (NL ++ render_lines group_line gs))
    by (unfold render; rewrite !sappend_assoc; reflexivity).
  assert (Husers : render us gs =
            (NL ++ render_lines user_line us) ++ (NL ++ NL ++ render_lines group_line gs))
    by (unfold render; rewrite !sappend_assoc; reflexivity).
  repeat split.
  - intros u Hu; rewrite Husers; apply contains_app_right.
    replace (NL ++ fst u ++ " = " ++ u_password (snd u) ++ ",_g_:" ++ u_group (snd u) ++ NL)
      with (NL ++ user_line u ++ NL)
      by (unfold user_line; rewrite !sappend_assoc; reflexivity).
    exact (render_lines_member user_line u us Hu).
  - intros g Hg; rewrite Hsplit; apply contains_app_left.
    replace (NL ++ "_g_\:" ++ fst g ++ " = " ++ String.concat "," (snd g) ++ NL)
      with (NL ++ group_line g ++ NL)
      by (unfold group_line; rewrite !sappend_assoc; reflexivity).
    exact (render_lines_member group_line g gs Hg).
  - intros pre u1 u2 post ->; rewrite Husers; apply contains_app_right.
    apply render_lines_adjacent.
  - intros pre g1 g2 post ->; rewrite Hsplit; apply contains_app_left.
    apply render_lines_adjacent.
  - intros r rs; apply concat_sep_each.
Qed.

Lemma render_spec_witness :
  contains (NL ++ "alice = p,_g_:g1" ++ NL)
    (render [("alice", {| u_group := "g1"; u_password := "p" |})] [("g1", ["viewer"])]) = true /\
  contains (NL ++ "_g_\:g1 = viewer" ++ NL)
    (render [("alice", {| u_group := "g1"; u_password := "p" |})] [("g1", ["viewer"])]) = true.
Proof.
  destruct (render_spec [("alice", {| u_group := "g1"; u_password := "p" |})] [("g1", ["viewer"])])
    as (Hu & Hg & _).
  split.
  - exact (Hu _ (or_introl eq_refl)).
  - exact (Hg _ (or_introl eq_refl)).
Defined.

Example render_alice :
  render [("alice", {| u_group := "g1"; u_password := "p" |})] [("g1", ["viewer"])] =
  NL ++ "alice = p,_g_:g1" ++ NL ++ NL ++ NL ++ "_g_\:g1 = viewer" ++ NL.
Proof. reflexivity. Qed.

(** ** C10: a changed admin password *)

Lemma dict_get_app {V} k (d e : dict V) :
  dict_get k (d ++ e)%list = match dict_get k d with Some v => Some v | None => dict_get k e end.
Proof.
  induction d as [| [k' v'] d IH]; simpl; [reflexivity |].
  destruct (String.eqb k' k); [reflexivity | exact IH].
Qed.

Lemma dict_get_set_other {V} k k' (v : V) d :
  k' <> k -> dict_get k (dict_set k' v d) = dict_get k d.
Proof.
  intros Hne; unfold dict_set; destruct (dict_mem k' d).
  - induction d as [| [k0 v0] d IH]; simpl; [reflexivity |].
    destruct (String.eqb k0 k') eqn:E0; simpl.
    + apply String.eqb_eq in E0; subst k0.
      apply String.eqb_neq in Hne; rewrite Hne; exact IH.
    + destruct (String.eqb k0 k); [reflexivity | exact IH].
  - rewrite dict_get_app; simpl.
    apply String.eqb_neq in Hne; rewrite Hne.
    destruct (dict_get k d); reflexivity.
Qed.

Lemma dict_get_set_cases {V} k k' (v : V) d w :
  dict_get k (dict_set k' v d) = Some w -> (k = k' /\ w = v) \/ dict_get k d = Some w.
Proof.
  destruct (String.eqb_spec k' k) as [-> | Hne].
  - rewrite dict_get_set; intros H; inversion H; auto.
  - rewrite (dict_get_set_other _ _ _ _ Hne); auto.
Qed.

(** C10. Once the admin user is stored, a successful users/groups step
    leaves its stored entry (group and password) as it was, whatever the
    configured [admin-password] now is; the only file the step writes is
    [users.properties], with the rendering of the stored maps (so with the
    stored admin password). A call of [activate_app] on a running service
    authenticates with the password of the current config. *)
Theorem admin_password_not_rewritten (env : Env) (s s' : St) (o : list Req) :
  dict_mem ADMIN_USERNAME (users (stored s)) = true ->
  configure_users_and_groups env s = (s', o, Ok tt) ->
  dict_get ADMIN_USERNAME (users (stored s')) = dict_get ADMIN_USERNAME (users (stored s)) /\
  (forall p c, dict_get p (files (container s')) = Some c ->
     dict_get p (files (container s)) = Some c \/
     ((exists f, p = users_path f) /\ c = render (users (stored s')) (groups (stored s')))) /\
  (forall env2 s2 n pw,
     mem n (apps_dir env2) = true -> mem n (apps (stored s2)) = false ->
     started (stored s2) = true -> admin_password (config env2) = Some pw ->
     snd (fst (activate_app n env2 s2)) = [HttpPost (app_url n) (ADMIN_USERNAME, pw)]).
Proof.
  intros Hadm H; split; [| split].
  - cug_unfold H.
    ok_inv; simpl in *; rewrite ?Hadm in *; simpl in *; try discriminate.
    all: try reflexivity.
    all: apply dict_get_set_other; discriminate.
  - cug_unfold H.
    ok_inv; simpl in *; intros p c Hp; auto.
    all: apply dict_get_set_cases in Hp; destruct Hp as [[-> ->] | Hp]; eauto.
  - intros env2 s2 n pw Hcat Hact Hst Hpw.
    cbv [activate_app check_app_exists get_available_apps config_admin_password
         bind ask get ret raise when modify_stored emit].
    rewrite Hcat, Hact; simpl. rewrite Hst, Hpw. reflexivity.
Qed.

Definition env_newpw : Env :=
  {| config := {| admin_password := Some "newpass"; guest_password := Some "guest";
                  enable_guest := false; enable_gui := false; java_opts := "-Xmx2G";
                  external_hostname := None |};
     root_entries := root_entries env0; apps_dir := apps_dir env0;
     has_ingress := false |}.

Definition seeded_ready : St :=
  {| stored := set_ready true (stored seeded); container := container seeded |}.

Definition newpw_pass := configure_users_and_groups env_newpw seeded_ready.

Lemma admin_password_not_rewritten_witness :
  dict_mem ADMIN_USERNAME (users (stored seeded_ready)) = true /\
  newpw_pass = (fst (fst newpw_pass), snd (fst newpw_pass), Ok tt) /\
  dict_get ADMIN_USERNAME (users (stored (fst (fst newpw_pass)))) =
    Some {| u_group := ADMIN_GROUP_NAME; u_password := "karaf" |}.
Proof.
  assert (H1 : dict_mem ADMIN_USERNAME (users (stored seeded_ready)) = true)
    by (vm_compute; reflexivity).
  assert (H2 : newpw_pass = (fst (fst newpw_pass), snd (fst newpw_pass), Ok tt))
    by (vm_compute; reflexivity).
  split; [exact H1 | split; [exact H2 |]].
  destruct (admin_password_not_rewritten env_newpw seeded_ready _ _ H1 H2) as [E _].
  rewrite E; vm_compute; reflexivity.
Defined.

(** ** C2: the karaf directory not yet discoverable *)

Definition env_nokaraf : Env :=
  {| config := cfg0; root_entries := [("bin", Directory); ("apache-karaf-4.2.14.tar.gz", RegularFile)];
     apps_dir := apps_dir env0; has_ingress := false |}.

(** C2 (failing input). With no [apache-karaf-*] directory under
    [/root/onos], [_get_apache_karaf_folder_path] indexes an empty list:
    the users/groups step raises [IndexError] instead of skipping the push,
    and so does the whole reconciliation pass, which makes a
    [config-changed] hook fail (only [ConfigMissingException] is caught). *)
Lemma karaf_missing_raises :
  karaf_dirs env_nokaraf = [] /\
  configure_users_and_groups env_nokaraf seeded_ready = (seeded_ready, [], Raise IndexError) /\
  snd (configure_async_logging env_nokaraf seeded_ready) = Raise IndexError /\
  snd (run_action ConfigChanged env_nokaraf seeded_ready) = Crashed IndexError.
Proof. vm_compute. repeat split. Qed.

(** * Further properties of the charm *)

(** ** Activation and deactivation *)

Lemma activate_app_eq n env s :
  mem n (apps_dir env) = true -> mem n (apps (stored s)) = false ->
  activate_app n env s =
    let s1 := {| stored := set_apps ((apps (stored s)) ++ [n])%list (stored s);
                 container := container s |} in
    if started (stored s) then
      match admin_password (config env) with
      | Some pw => (s1, [HttpPost (app_url n) (ADMIN_USERNAME, pw)], Ok tt)
      | None => (s1, [], Raise (KeyError "admin-password"))
      end
    else (s1, [], Ok tt).
Proof.
  intros Hc Ha.
  cbv [activate_app check_app_exists get_available_apps config_admin_password
       bind ask get ret raise when modify_stored emit].
  rewrite Hc, Ha; simpl. unfold set_add; rewrite Ha.
  destruct (started (stored s)); [| reflexivity].
  destruct (admin_password (config env)); reflexivity.
Qed.

Lemma deactivate_app_eq n env s :
  mem n (apps_dir env) = true -> mem n (apps (stored s)) = true ->
  deactivate_app n env s =
    let s1 := {| stored := set_apps (set_remove n (apps (stored s))) (stored s);
                 container := container s |} in
    if started (stored s) then
      match admin_password (config env) with
      | Some pw => (s1, [HttpDelete (app_url n) (ADMIN_USERNAME, pw)], Ok tt)
      | None => (s1, [], Raise (KeyError "admin-password"))
      end
    else (s1, [], Ok tt).
Proof.
  intros Hc Ha.
  cbv [deactivate_app check_app_exists get_available_apps config_admin_password
       bind ask get ret raise when modify_stored emit].
  rewrite Hc, Ha; simpl.
  destruct (started (stored s)); [| reflexivity].
  destruct (admin_password (config env)); reflexivity.
Qed.

Lemma mem_In x l : mem x l = true <-> In x l.
Proof.
  unfold mem; rewrite existsb_exists; split.
  - intros (y & Hy & E); apply String.eqb_eq in E; subst; exact Hy.
  - intros H; exists x; split; [exact H | apply String.eqb_refl].
Qed.

Lemma mem_app_single x l : mem x (l ++ [x])%list = true.
Proof. apply mem_In, in_or_app; right; left; reflexivity. Qed.

Lemma set_remove_not_in x l : mem x l = false -> set_remove x l = l.
Proof.
  induction l as [| y l IH]; simpl; [reflexivity |].
  intros H; apply orb_false_iff in H; destruct H as [H1 H2].
  rewrite String.eqb_sym, H1; simpl; rewrite IH; auto.
Qed.

Lemma set_remove_snoc x l : mem x l = false -> set_remove x (l ++ [x])%list = l.
Proof.
  intros H; unfold set_remove; rewrite filter_app; simpl.
  rewrite String.eqb_refl; simpl.
  fold (set_remove x l); rewrite set_remove_not_in by exact H.
  apply app_nil_r.
Qed.

(** Activating an application of the catalog that is not active adds it
    once; a second activation raises [AlreadyActive], changes nothing and
    sends nothing. Deactivating it afterwards gives back the apps set of
    the start, whether or not the remote calls could be sent. *)
Theorem activate_twice_then_deactivate (env : Env) (s : St) (n : string) :
  mem n (apps_dir env) = true -> mem n (apps (stored s)) = false ->
  let s1 := fst (fst (activate_app n env s)) in
  count_occ string_dec (apps (stored s1)) n = 1 /\
  activate_app n env s1 = (s1, [], Raise (AlreadyActive n)) /\
  apps (stored (fst (fst (deactivate_app n env s1)))) = apps (stored s).
Proof.
  intros Hc Ha s1.
  assert (Hs1 : apps (stored s1) = (apps (stored s) ++ [n])%list).
  { unfold s1; rewrite (activate_app_eq n env s Hc Ha); cbv zeta.
    destruct (started (stored s)); [destruct (admin_password (config env)) |]; reflexivity. }
  assert (Hn : count_occ string_dec (apps (stored s)) n = 0).
  { apply count_occ_not_In; intros Hin; apply mem_In in Hin; congruence. }
  split; [| split].
  - rewrite Hs1, count_occ_app, Hn; simpl.
    destruct (string_dec n n); congruence.
  - cbv [activate_app check_app_exists get_available_apps bind ask get ret raise].
    rewrite Hc, Hs1, mem_app_single; reflexivity.
  - assert (Hm : mem n (apps (stored s1)) = true) by (rewrite Hs1; apply mem_app_single).
    rewrite (deactivate_app_eq n env s1 Hc Hm); cbv zeta.
    destruct (started (stored s1)); [destruct (admin_password (config env)) |];
      simpl; rewrite Hs1; apply set_remove_snoc; exact Ha.
Qed.

Lemma activate_twice_then_deactivate_witness :
  mem "org.onosproject.openflow" (apps_dir env0) = true /\
  mem "org.onosproject.openflow" (apps (stored seeded)) = false /\
  count_occ string_dec
    (apps (stored (fst (fst (activate_app "org.onosproject.openflow" env0 seeded)))))
    "org.onosproject.openflow" = 1.
Proof.
  assert (H1 : mem "org.onosproject.openflow" (apps_dir env0) = true) by reflexivity.
  assert (H2 : mem "org.onosproject.openflow" (apps (stored seeded)) = false)
    by (vm_compute; reflexivity).
  split; [exact H1 | split; [exact H2 |]].
  exact (proj1 (activate_twice_then_deactivate env0 seeded _ H1 H2)).
Defined.

(** Deactivating an application of the catalog that is not active raises
    [NotActive], changes nothing and sends nothing. *)
Theorem deactivate_inactive_rejected (env : Env) (s : St) (n : string) :
  mem n (apps_dir env) = true -> mem n (apps (stored s)) = false ->
  deactivate_app n env s = (s, [], Raise (NotActive n)).
Proof.
  intros Hc Ha.
  cbv [deactivate_app check_app_exists get_available_apps bind ask get ret raise].
  rewrite Hc, Ha; reflexivity.
Qed.

Lemma deactivate_inactive_rejected_witness :
  deactivate_app GUI_APP env0 seeded = (seeded, [], Raise (NotActive GUI_APP)).
Proof.
  apply deactivate_inactive_rejected; vm_compute; reflexivity.
Defined.

(** While the service has not been started, (de)activation only changes
    the local set and sends no request; once started, the local change is
    made even when the remote call cannot be authenticated (a missing
    [admin-password] raises [KeyError] after the set was updated). *)
Theorem activate_local_first (env : Env) (s : St) (n : string) :
  mem n (apps_dir env) = true -> mem n (apps (stored s)) = false ->
  (started (stored s) = false ->
     activate_app n env s =
       ({| stored := set_apps (apps (stored s) ++ [n])%list (stored s);
           container := container s |}, [], Ok tt)) /\
  (started (stored s) = true -> admin_password (config env) = None ->
     activate_app n env s =
       ({| stored := set_apps (apps (stored s) ++ [n])%list (stored s);
           container := container s |}, [], Raise (KeyError "admin-password"))).
Proof.
  intros Hc Ha; rewrite (activate_app_eq n env s Hc Ha); cbv zeta.
  split; intros Hst; rewrite Hst; [reflexivity |].
  intros Hpw; rewrite Hpw; reflexivity.
Qed.

Lemma activate_local_first_witness :
  snd (activate_app "org.onosproject.openflow" env0 seeded) = Ok tt /\
  snd (fst (activate_app "org.onosproject.openflow" env0 seeded)) = [].
Proof.
  assert (H1 : mem "org.onosproject.openflow" (apps_dir env0) = true) by reflexivity.
  assert (H2 : mem "org.onosproject.openflow" (apps (stored seeded)) = false)
    by (vm_compute; reflexivity).
  assert (H3 : started (stored seeded) = false) by (vm_compute; reflexivity).
  rewrite (proj1 (activate_local_first env0 seeded _ H1 H2) H3); split; reflexivity.
Defined.

Lemma bind_modify_stored {B} g (f : unit -> M B) env s :
  bind (modify_stored g) f env s =
  f tt env {| stored := g (stored s); container := container s |}.
Proof.
  unfold bind, modify_stored; simpl.
  destruct (f tt env _) as [[s2 o2] r]; reflexivity.
Qed.

Lemma bind_raise {A B} (m : M A) (f : A -> M B) env s s1 o1 e :
  m env s = (s1, o1, Raise e) -> bind m f env s = (s1, o1, Raise e).
Proof. intros H; unfold bind; rewrite H; reflexivity. Qed.

(** ** Configuration validation and the deferral of lifecycle events *)

(** A missing [admin-password], or a missing [guest-password] while
    [enable-guest] is set, makes the reconciliation pass raise
    [ConfigMissing] before any change or request. [config-changed] then
    defers with the state as it was; [pebble-ready] defers too, having
    already recorded [ready], without marking the service started and
    without touching the container. *)
Theorem config_missing_defers (env : Env) (s : St) :
  admin_password (config env) = None \/
  (enable_guest (config env) = true /\ guest_password (config env) = None) ->
  exists k,
    configure env s = (s, [], Raise (ConfigMissing k)) /\
    run_action ConfigChanged env s = (s, [], Deferred (ConfigMissing k)) /\
    run_action PebbleReady env s =
      ({| stored := set_ready true (stored s); container := container s |}, [],
       Deferred (ConfigMissing k)).
Proof.
  intros Hm.
  set (k := match admin_password (config env) with
             | None => "admin-password" | Some _ => "guest-password" end).
  assert (Hc : forall s0, configure env s0 = (s0, [], Raise (ConfigMissing k))).
  { intros s0; unfold k; cbv [configure check_config bind ask raise ret when].
    destruct Hm as [Ha | [Hg Hp]].
    - rewrite Ha; reflexivity.
    - destruct (admin_password (config env)); [| reflexivity].
      rewrite Hg, Hp; reflexivity. }
  pose proof (Hc s) as Hk.
  pose proof (Hc {| stored := set_ready true (stored s); container := container s |}) as Hk'.
  exists k; split; [exact Hk | split].
  - unfold run_action; simpl; rewrite Hk; reflexivity.
  - unfold run_action, handler_body.
    rewrite bind_modify_stored, (bind_raise _ _ _ _ _ _ _ Hk'); reflexivity.
Qed.

Definition env_nopw : Env :=
  {| config := {| admin_password := None; guest_password := None;
                  enable_guest := false; enable_gui := false; java_opts := "-Xmx2G";
                  external_hostname := None |};
     root_entries := root_entries env0; apps_dir := apps_dir env0;
     has_ingress := false |}.

Lemma config_missing_defers_witness :
  exists k, run_action ConfigChanged env_nopw seeded = (seeded, [], Deferred (ConfigMissing k)).
Proof.
  destruct (config_missing_defers env_nopw seeded (or_introl eq_refl)) as (k & _ & H & _).
  exists k; exact H.
Defined.

(** ** Converging the GUI application *)

Lemma configure_gui_app_eq env s :
  configure_gui_app env s =
  (if enable_gui (config env) && negb (mem GUI_APP (apps (stored s))) then activate_app GUI_APP
   else if negb (enable_gui (config env)) && mem GUI_APP (apps (stored s))
        then deactivate_app GUI_APP else ret tt) env s.
Proof. unfold configure_gui_app; rewrite bind_get, bind_ask; reflexivity. Qed.

Lemma mem_set_remove x l : mem x (set_remove x l) = false.
Proof.
  induction l as [| y l IH]; simpl; [reflexivity |].
  destruct (String.eqb y x) eqn:E; simpl; [exact IH |].
  rewrite String.eqb_sym, E; exact IH.
Qed.

(** When the GUI step succeeds, the GUI application is in the apps set
    exactly when [enable-gui] is set, and running the step again under the
    same configuration does nothing: no change, no request. *)
Theorem configure_gui_app_converges (env : Env) (s s' : St) (o : list Req) :
  configure_gui_app env s = (s', o, Ok tt) ->
  mem GUI_APP (apps (stored s')) = enable_gui (config env) /\
  configure_gui_app env s' = (s', [], Ok tt).
Proof.
  intros H.
  assert (Hfix : mem GUI_APP (apps (stored s')) = enable_gui (config env)).
  { rewrite configure_gui_app_eq in H.
    destruct (enable_gui (config env)) eqn:Eg, (mem GUI_APP (apps (stored s))) eqn:Ea;
      simpl in H.
    - inversion H; subst; exact Ea.
    - destruct (mem GUI_APP (apps_dir env)) eqn:Ec.
      + rewrite (activate_app_eq _ _ _ Ec Ea) in H; cbv zeta in H.
        destruct (started (stored s)); [destruct (admin_password (config env)) |];
          inversion H; subst; simpl; apply mem_app_single.
      + rewrite (proj1 (unknown_app_rejected env s _ Ec)) in H; discriminate.
    - destruct (mem GUI_APP (apps_dir env)) eqn:Ec.
      + rewrite (deactivate_app_eq _ _ _ Ec Ea) in H; cbv zeta in H.
        destruct (started (stored s)); [destruct (admin_password (config env)) |];
          inversion H; subst; simpl; apply mem_set_remove.
      + rewrite (proj2 (unknown_app_rejected env s _ Ec)) in H; discriminate.
    - inversion H; subst; exact Ea. }
  split; [exact Hfix |].
  rewrite configure_gui_app_eq, Hfix.
  destruct (enable_gui (config env)); reflexivity.
Qed.

Definition env_gui : Env :=
  {| config := {| admin_password := Some "karaf"; guest_password := None;
                  enable_guest := false; enable_gui := true; java_opts := "-Xmx2G";
                  external_hostname := None |};
     root_entries := root_entries env0; apps_dir := apps_dir env0;
     has_ingress := false |}.

Lemma configure_gui_app_converges_witness :
  mem GUI_APP (apps (stored (fst (fst (configure_gui_app env_gui seeded))))) = true.
Proof.
  assert (H : configure_gui_app env_gui seeded =
              (fst (fst (configure_gui_app env_gui seeded)),
               snd (fst (configure_gui_app env_gui seeded)), Ok tt))
    by (vm_compute; reflexivity).
  exact (proj1 (configure_gui_app_converges _ _ _ _ H)).
Defined.

(** ** Normalising a run of the charm monad *)

Lemma bind_assoc {A B C} (m : M A) (g : A -> M B) (h : B -> M C) env s :
  bind (bind m g) h env s = bind m (fun x => bind (g x) h) env s.
Proof.
  unfold bind.
  destruct (m env s) as [[s1 o1] [a | e]]; [| reflexivity].
  destruct (g a env s1) as [[s2 o2] [b | e]]; [| reflexivity].
  destruct (h b env s2) as [[s3 o3] r]; rewrite app_assoc; reflexivity.
Qed.

Lemma bind_ret_l {A B} (a : A) (f : A -> M B) env s : bind (ret a) f env s = f a env s.
Proof. unfold bind, ret; simpl. destruct (f a env s) as [[s2 o2] r]; reflexivity. Qed.

Lemma bind_raise_l {A B} e (f : A -> M B) env s : bind (raise e) f env s = (s, [], Raise e).
Proof. reflexivity. Qed.

Lemma bind_modify_container {B} g (f : unit -> M B) env s :
  bind (modify_container g) f env s =
  f tt env {| stored := stored s; container := g (container s) |}.
Proof.
  unfold bind, modify_container; simpl.
  destruct (f tt env _) as [[s2 o2] r]; reflexivity.
Qed.

Lemma bind_emit {B} r (f : unit -> M B) env s :
  bind (emit r) f env s = let '(s2, o2, x) := f tt env s in (s2, r :: o2, x).
Proof. reflexivity. Qed.

Ltac mnorm :=
  repeat (rewrite ?bind_assoc, ?bind_ask, ?bind_get, ?bind_ret_l, ?bind_raise_l,
                  ?bind_modify_stored, ?bind_modify_container; cbv beta).

Ltac mcase :=
  match goal with
  | |- context [bind (when ?b _) _ _ _] => let E := fresh "E" in destruct b eqn:E; cbn [when]
  | |- context [bind (if ?b then _ else _) _ _ _] => let E := fresh "E" in destruct b eqn:E
  | |- context [bind (match ?x with _ => _ end) _ _ _] => let E := fresh "E" in destruct x eqn:E
  | |- context [when ?b _ _ _] => let E := fresh "E" in destruct b eqn:E; cbn [when]
  | |- context [(if ?b then _ else _) _ _] => let E := fresh "E" in destruct b eqn:E
  | |- context [(match ?x with _ => _ end) _ _] => let E := fresh "E" in destruct x eqn:E
  end.

Ltac mrun := mnorm; repeat (mcase; mnorm); cbn -[dict_set dict_update render] in *.

Ltac cug_unfold_goal :=
  unfold configure_users_and_groups, get_apache_karaf_folder_path,
    config_admin_password, config_guest_password, update_users, update_groups, push.

(** ** What the users/groups step keeps *)

Lemma dict_get_mem {V} k (d : dict V) v : dict_get k d = Some v -> dict_mem k d = true.
Proof.
  induction d as [| [k' v'] d IH]; simpl; [discriminate |].
  unfold dict_mem in *; simpl.
  destruct (String.eqb k' k) eqn:E; intros H; simpl; [reflexivity |].
  exact (IH H).
Qed.

Lemma dict_get_set_keep {V} k k' (v v' : V) d :
  dict_mem k' d = false -> dict_get k d = Some v -> dict_get k (dict_set k' v' d) = Some v.
Proof.
  intros Hm Hk.
  destruct (String.eqb_spec k' k) as [-> | Hne].
  - apply dict_get_mem in Hk; congruence.
  - rewrite dict_get_set_other by exact Hne; exact Hk.
Qed.

Lemma dict_update_single {V} (d : dict V) k v : dict_update d [(k, v)] = dict_set k v d.
Proof. reflexivity. Qed.

Ltac split_conds :=
  repeat match goal with
  | H : _ && _ = true |- _ => apply andb_true_iff in H; destruct H
  | H : negb _ = true |- _ => apply negb_true_iff in H
  end.

(** Every user entry present before the step is still there after it,
    whatever the step's outcome: admin and guest are only added when
    absent. *)
Lemma cug_users_extend env s k v :
  dict_get k (users (stored s)) = Some v ->
  dict_get k (users (stored (fst (fst (configure_users_and_groups env s))))) = Some v.
Proof.
  intros Hk; cug_unfold_goal; mrun; split_conds.
  all: unfold admin_user, guest_user in *; rewrite ?dict_update_single in *.
  all: repeat (apply dict_get_set_keep; [eassumption |]); assumption.
Qed.

(** Names other than [admin] and [guest] are never added to the users by
    the step. *)
Lemma cug_users_absent env s k :
  k <> ADMIN_USERNAME -> k <> GUEST_USERNAME ->
  dict_get k (users (stored s)) = None ->
  dict_get k (users (stored (fst (fst (configure_users_and_groups env s))))) = None.
Proof.
  intros Ha Hg Hk; cug_unfold_goal; mrun.
  all: unfold admin_user, guest_user; rewrite ?dict_update_single.
  all: rewrite ?dict_get_set_other by congruence; exact Hk.
Qed.

(** Group names other than the two reserved ones keep their entry. *)
Lemma cug_groups_other env s k :
  k <> ADMIN_GROUP_NAME -> k <> GUEST_GROUP_NAME ->
  dict_get k (groups (stored (fst (fst (configure_users_and_groups env s))))) =
  dict_get k (groups (stored s)).
Proof.
  intros Ha Hg; cug_unfold_goal; mrun.
  all: unfold DEFAULT_GROUPS, dict_update; simpl fold_left.
  all: rewrite ?dict_get_set_other by congruence; reflexivity.
Qed.

Lemma dict_get_remove {V} k (d : dict V) : dict_get k (dict_remove k d) = None.
Proof.
  induction d as [| [k' v'] d IH]; simpl; [reflexivity |].
  destruct (String.eqb k' k) eqn:E; simpl; [exact IH |].
  rewrite E; exact IH.
Qed.

Lemma mem_reserved_users u :
  mem u [ADMIN_USERNAME; GUEST_USERNAME] = false -> u <> ADMIN_USERNAME /\ u <> GUEST_USERNAME.
Proof.
  intros H; split; intros ->; vm_compute in H; discriminate.
Qed.

Lemma mem_reserved_groups g :
  mem g [ADMIN_GROUP_NAME; GUEST_GROUP_NAME] = false -> g <> ADMIN_GROUP_NAME /\ g <> GUEST_GROUP_NAME.
Proof.
  intros H; split; intros ->; vm_compute in H; discriminate.
Qed.

(** ** Adding and deleting users and groups *)

(** [add_user] with an existing group and a new, non-reserved username
    stores the user with its group and password; the entry stays even when
    the re-render that follows fails (e.g. no karaf directory yet). *)
Theorem add_user_stores (env : Env) (s : St) (u p g : string) :
  dict_mem g (groups (stored s)) = true ->
  dict_mem u (users (stored s)) = false ->
  mem u [ADMIN_USERNAME; GUEST_USERNAME] = false ->
  dict_get u (users (stored (fst (fst (add_user u p g env s))))) =
    Some {| u_group := g; u_password := p |}.
Proof.
  intros Hg Hu Hr.
  unfold add_user; rewrite bind_get, Hg, Hu, Hr; cbn [negb].
  unfold update_users; rewrite bind_modify_stored.
  apply cug_users_extend; simpl.
  rewrite ?dict_update_single; apply dict_get_set.
Qed.

Lemma add_user_stores_witness :
  dict_get "alice" (users (stored (fst (fst (add_user "alice" "p" ADMIN_GROUP_NAME env0 seeded))))) =
    Some {| u_group := ADMIN_GROUP_NAME; u_password := "p" |}.
Proof. apply add_user_stores; vm_compute; reflexivity. Defined.

(** [delete_user] of a stored, non-reserved username removes it, and the
    re-render that follows never brings it back. *)
Theorem delete_user_removes (env : Env) (s : St) (u : string) :
  dict_mem u (users (stored s)) = true ->
  mem u [ADMIN_USERNAME; GUEST_USERNAME] = false ->
  dict_get u (users (stored (fst (fst (delete_user u env s))))) = None.
Proof.
  intros Hu Hr.
  destruct (mem_reserved_users u Hr) as [Ha Hg].
  unfold delete_user; rewrite bind_get, Hu, Hr; cbn [negb].
  rewrite bind_modify_stored.
  apply cug_users_absent; auto; simpl.
  apply dict_get_remove.
Qed.

Definition with_alice := fst (fst (add_user "alice" "p" ADMIN_GROUP_NAME env0 seeded)).

Lemma delete_user_removes_witness :
  dict_get "alice" (users (stored (fst (fst (delete_user "alice" env0 with_alice))))) = None.
Proof. apply delete_user_removes; vm_compute; reflexivity. Defined.

(** [add_group] with a non-reserved name and roles all in [ALL_ROLES]
    stores the group with its roles as given (in order, duplicates kept),
    replacing the roles of a group of that name if there was one: there is
    no duplicate-group check. *)
Theorem add_group_stores (env : Env) (s : St) (g : string) (roles : list string) :
  mem g [ADMIN_GROUP_NAME; GUEST_GROUP_NAME] = false ->
  non_existing_roles roles = [] ->
  dict_get g (groups (stored (fst (fst (add_group g roles env s))))) = Some roles.
Proof.
  intros Hr Hn.
  destruct (mem_reserved_groups g Hr) as [Ha Hg].
  unfold add_group; rewrite Hr; fold (non_existing_roles roles); rewrite Hn.
  unfold update_groups; rewrite bind_modify_stored.
  rewrite cug_groups_other by auto; simpl.
  rewrite ?dict_update_single; apply dict_get_set.
Qed.

Definition with_qa := fst (fst (add_group "qa" ["viewer"] env0 seeded)).

Lemma add_group_stores_witness :
  dict_get "qa" (groups (stored (fst (fst (add_group "qa" ["admin"; "admin"] env0 with_qa))))) =
    Some ["admin"; "admin"].
Proof. apply add_group_stores; vm_compute; reflexivity. Defined.

(** [delete_group] of a reserved name raises [ReservedIdentifier] and of
    an unknown name raises [KeyError] (the [pop] on a missing key), the
    state unchanged and nothing sent in both cases. Deleting an existing
    non-reserved group removes it but keeps every user entry, those that
    still name the group included: nothing checks for such users. *)
Theorem delete_group_spec (env : Env) (s : St) (g : string) :
  (mem g [ADMIN_GROUP_NAME; GUEST_GROUP_NAME] = true ->
     delete_group g env s = (s, [], Raise (ReservedIdentifier g))) /\
  (mem g [ADMIN_GROUP_NAME; GUEST_GROUP_NAME] = false -> dict_mem g (groups (stored s)) = false ->
     delete_group g env s = (s, [], Raise (KeyError g))) /\
  (mem g [ADMIN_GROUP_NAME; GUEST_GROUP_NAME] = false -> dict_mem g (groups (stored s)) = true ->
     let s' := fst (fst (delete_group g env s)) in
     dict_get g (groups (stored s')) = None /\
     (forall u d, dict_get u (users (stored s)) = Some d -> dict_get u (users (stored s')) = Some d)).
Proof.
  split; [| split].
  - intros Hr; unfold delete_group; rewrite Hr; reflexivity.
  - intros Hr Hm; unfold delete_group; rewrite Hr, bind_get, Hm; reflexivity.
  - intros Hr Hm s'.
    destruct (mem_reserved_groups g Hr) as [Ha Hg].
    unfold s', delete_group; rewrite Hr, bind_get, Hm; cbn [negb].
    rewrite bind_modify_stored; split.
    + rewrite cug_groups_other by auto; simpl; apply dict_get_remove.
    + intros u d Hu; apply cug_users_extend; simpl; exact Hu.
Qed.

Definition alice_in_qa := fst (fst (add_user "alice" "p" "qa" env0 with_qa)).

Lemma delete_group_spec_witness :
  dict_get "alice" (users (stored (fst (fst (delete_group "qa" env0 alice_in_qa))))) =
    Some {| u_group := "qa"; u_password := "p" |}.
Proof.
  refine (proj2 (proj2 (proj2 (delete_group_spec env0 alice_in_qa "qa")) _ _) _ _ _);
    vm_compute; reflexivity.
Defined.

(** ** The ONOS service *)

(** While the pebble plan has no [onos] service (before the [onos] layer
    is added), [_start_onos], [_stop_onos] and [_restart_onos] all fail
    with [ModelError] from [self.onos_service], changing nothing and
    sending nothing. Once the service is defined, [_start_onos] raises
    [ServiceAlreadyActive] on a running service and otherwise starts it,
    and [_stop_onos] raises [ServiceNotRunning] on a stopped service and
    otherwise stops it; the failing calls change nothing and send nothing,
    the others only flip the service status. *)
Theorem start_stop_onos_spec (env : Env) (s : St) :
  start_onos env s =
    (if negb (svc_defined (container s)) then (s, [], Raise ModelError)
     else if svc_active (container s) then (s, [], Raise ServiceAlreadyActive)
     else ({| stored := stored s;
              container := {| files := files (container s); svc_active := true;
                              svc_defined := true |} |},
           [SvcStart], Ok tt)) /\
  stop_onos env s =
    (if negb (svc_defined (container s)) then (s, [], Raise ModelError)
     else if svc_active (container s)
     then ({| stored := stored s;
              container := {| files := files (container s); svc_active := false;
                              svc_defined := true |} |},
           [SvcStop], Ok tt)
     else (s, [], Raise ServiceNotRunning)).
Proof.
  destruct s as [st [fs sa sd]].
  unfold start_onos, stop_onos, onos_service_active, set_svc; rewrite !bind_assoc, !bind_get.
  destruct sd, sa; split; reflexivity.
Qed.

(** [_restart_onos] fails with [ModelError] exactly when the plan has no
    [onos] service yet, with no change and no request. Otherwise it stops
    the service first if (and only if) it is running, then starts it, so
    the service ends up running; the files and the stored state are
    untouched. *)
Theorem restart_onos_spec (env : Env) (s : St) :
  restart_onos env s =
    (if negb (svc_defined (container s)) then (s, [], Raise ModelError)
     else
     ({| stored := stored s;
         container := {| files := files (container s); svc_active := true;
                         svc_defined := true |} |},
      (if svc_active (container s) then [SvcStop; SvcStart] else [SvcStart]),
      Ok tt)).
Proof.
  destruct s as [st [fs sa sd]].
  unfold restart_onos, onos_service_active, set_svc; rewrite !bind_assoc, !bind_get.
  destruct sd, sa; reflexivity.
Qed.

(** ** The logging step *)

(** When the karaf directory is found and the charm is ready,
    [_configure_async_logging] appends the async-appender snippet to a
    logging file that lacks it, nothing else; a missing logging file makes
    the pull fail with [PathError], the state unchanged. Before the charm is
    ready, the step does nothing. *)
Theorem async_logging_appends (env : Env) (s : St) (f : string) (l : list string) :
  karaf_dirs env = f :: l ->
  (forall c, ready (stored s) = true -> str_truthy f = true ->
     dict_get (logging_path f) (files (container s)) = Some c ->
     contains ASYNC_LOGGING c = false ->
     configure_async_logging env s =
       ({| stored := stored s;
           container := {| files := dict_set (logging_path f) (c ++ ASYNC_LOGGING)
                                      (files (container s));
                           svc_active := svc_active (container s);
                           svc_defined := svc_defined (container s) |} |}, [], Ok tt)) /\
  (ready (stored s) = true -> str_truthy f = true ->
     dict_get (logging_path f) (files (container s)) = None ->
     configure_async_logging env s = (s, [], Raise (PathError (logging_path f)))) /\
  (ready (stored s) = false -> configure_async_logging env s = (s, [], Ok tt)).
Proof.
  intros Hd.
  cbv [configure_async_logging get_apache_karaf_folder_path pull push bind ask get
       ret raise when modify_container].
  rewrite Hd; split; [| split].
  - intros c Hr Ht Hf Hc; rewrite Hr, Ht; simpl; rewrite Hf, Hc; reflexivity.
  - intros Hr Ht Hf; rewrite Hr, Ht; simpl; rewrite Hf; reflexivity.
  - intros Hr; rewrite Hr; reflexivity.
Qed.

Lemma async_logging_appends_witness :
  configure_async_logging env0 {| stored := set_ready true (stored seeded); container := container0 |} =
    ({| stored := set_ready true (stored seeded);
        container := {| files := dict_set (logging_path karaf_dir)
                                   ("log4j.rootLogger=INFO" ++ ASYNC_LOGGING) (files container0);
                        svc_active := false; svc_defined := false |} |}, [], Ok tt).
Proof.
  exact (proj1 (async_logging_appends env0 {| stored := set_ready true (stored seeded); container := container0 |}
                  karaf_dir [] eq_refl) "log4j.rootLogger=INFO"
           eq_refl eq_refl eq_refl eq_refl).
Defined.

(** ** Role lists: splitting and joining *)

Lemma split_comma_nonempty s : split_comma s <> [].
Proof.
  destruct s as [| c r]; simpl; [discriminate |].
  destruct (Ascii.eqb c ","); [discriminate |].
  destruct (split_comma r); discriminate.
Qed.

Lemma split_comma_join s : String.concat "," (split_comma s) = s.
Proof.
  induction s as [| c r IH]; [reflexivity |].
  simpl. pose proof (split_comma_nonempty r) as Hne.
  destruct (Ascii.eqb c ",") eqn:E.
  - apply Ascii.eqb_eq in E; subst c.
    destruct (split_comma r) as [| h t]; [contradiction |].
    change (String "," (String.concat "," (h :: t)) = String "," r); rewrite IH; reflexivity.
  - destruct (split_comma r) as [| h t]; [contradiction |].
    destruct t as [| h' t]; simpl in *; rewrite IH; reflexivity.
Qed.

(** A successful [_parse_roles] has been given a string, and returns a
    non-empty list of alphanumeric tokens that the comma-join maps back to
    that very string: [",".join(_parse_roles(v)) == v]. *)
Theorem parse_roles_roundtrip (v : PyVal) (roles : list string) :
  parse_roles v = Ok roles ->
  v = PStr (String.concat "," roles) /\ roles <> [] /\ forallb isalnum roles = true.
Proof.
  unfold parse_roles.
  destruct (negb (truthy v) || negb (is_str v)); [discriminate |].
  destruct v as [s | | | |]; try discriminate.
  destruct (find (fun role => negb (isalnum role)) (split_comma s)) eqn:Ef;
    [discriminate |].
  intros H; injection H as <-.
  split; [rewrite split_comma_join; reflexivity |].
  split; [apply split_comma_nonempty |].
  apply find_none_forallb in Ef.
  rewrite forallb_forall in *; intros x Hx; specialize (Ef x Hx).
  destruct (isalnum x); [reflexivity | discriminate].
Qed.

Lemma parse_roles_roundtrip_witness :
  PStr "viewer,admin" = PStr (String.concat "," ["viewer"; "admin"]) /\
  ["viewer"; "admin"] <> [] /\ forallb isalnum ["viewer"; "admin"] = true.
Proof. apply parse_roles_roundtrip; reflexivity. Defined.

(** ** Reserved user entries are never changed *)

Definition user_fixed (k : string) (v : UserData) (st : Stored) : Prop :=
  dict_get k (users st) = Some v.

Lemma dict_get_remove_other {V} k u (d : dict V) :
  u <> k -> dict_get k (dict_remove u d) = dict_get k d.
Proof.
  intros Hne; induction d as [| [k' v'] d IH]; simpl; [reflexivity |].
  destruct (String.eqb_spec k' u) as [-> | Hu]; simpl.
  - apply String.eqb_neq in Hne; rewrite Hne; exact IH.
  - destruct (String.eqb k' k); [reflexivity | exact IH].
Qed.

Lemma keeps_uf_of_ug {A} (m : M A) k v :
  (forall U G, keeps (ug_eq U G) m) -> keeps (user_fixed k v) m.
Proof.
  intros Hm env s H.
  destruct (Hm (users (stored s)) (groups (stored s)) env s (conj eq_refl eq_refl)) as [Hu _].
  unfold user_fixed; rewrite Hu; exact H.
Qed.

Lemma keeps_uf_configure_users_and_groups k v :
  keeps (user_fixed k v) configure_users_and_groups.
Proof. intros env s H; apply cug_users_extend; exact H. Qed.

Lemma keeps_uf_check_config k v : keeps (user_fixed k v) check_config.
Proof. apply keeps_uf_of_ug; apply keeps_ug_check_config. Qed.

Lemma keeps_uf_configure_gui_app k v : keeps (user_fixed k v) configure_gui_app.
Proof. apply keeps_uf_of_ug; apply keeps_ug_configure_gui_app. Qed.

Lemma keeps_uf_configure_ingress k v : keeps (user_fixed k v) configure_ingress.
Proof. apply keeps_uf_of_ug; apply keeps_ug_configure_ingress. Qed.

Lemma keeps_uf_configure_async_logging k v : keeps (user_fixed k v) configure_async_logging.
Proof. apply keeps_uf_of_ug; apply keeps_ug_configure_async_logging. Qed.

Lemma keeps_uf_activate_app k v n : keeps (user_fixed k v) (activate_app n).
Proof. apply keeps_uf_of_ug; intros; apply keeps_ug_activate_app. Qed.

Lemma keeps_uf_deactivate_app k v n : keeps (user_fixed k v) (deactivate_app n).
Proof. apply keeps_uf_of_ug; intros; apply keeps_ug_deactivate_app. Qed.

#[export] Hint Resolve keeps_uf_configure_users_and_groups keeps_uf_check_config
  keeps_uf_configure_gui_app keeps_uf_configure_ingress keeps_uf_configure_async_logging
  keeps_uf_activate_app keeps_uf_deactivate_app : keeps_db.

Lemma keeps_uf_configure k v : keeps (user_fixed k v) configure.
Proof. unfold configure; keeps_tac. Qed.

#[export] Hint Resolve keeps_uf_configure : keeps_db.

(** An existing entry survives [_add_user] because the new username is
    checked to be fresh. *)
Lemma keeps_uf_add_user k v u p g : keeps (user_fixed k v) (add_user u p g).
Proof.
  intros env s H; unfold add_user; rewrite bind_get.
  destruct (negb (dict_mem g (groups (stored s)))); [exact H |].
  destruct (dict_mem u (users (stored s))) eqn:Hu; [exact H |].
  destruct (mem u [ADMIN_USERNAME; GUEST_USERNAME]); [exact H |].
  unfold update_users; rewrite bind_modify_stored.
  apply cug_users_extend; simpl; rewrite ?dict_update_single.
  apply dict_get_set_keep; assumption.
Qed.

Lemma keeps_uf_delete_user k v u :
  mem k [ADMIN_USERNAME; GUEST_USERNAME] = true -> keeps (user_fixed k v) (delete_user u).
Proof.
  intros Hk env s H; unfold delete_user; rewrite bind_get.
  destruct (negb (dict_mem u (users (stored s)))); [exact H |].
  destruct (mem u [ADMIN_USERNAME; GUEST_USERNAME]) eqn:Hu; [exact H |].
  rewrite bind_modify_stored.
  apply cug_users_extend; simpl.
  rewrite dict_get_remove_other; [exact H |].
  intros ->; rewrite Hk in Hu; discriminate.
Qed.

Ltac keeps_uf :=
  repeat first [ apply keeps_modify_stored; intros; unfold user_fixed in *; simpl; assumption
               | keeps_step ].

Lemma keeps_uf_handler a k v :
  mem k [ADMIN_USERNAME; GUEST_USERNAME] = true -> keeps (user_fixed k v) (handler_body a).
Proof.
  intros Hk.
  destruct a; simpl;
    try apply keeps_uf_add_user; try (apply keeps_uf_delete_user; exact Hk);
    unfold add_onos_layer, restart_onos, start_onos, stop_onos, onos_service_active, set_svc,
      add_group, delete_group, update_groups, get_available_apps;
    keeps_uf.
Qed.

(** Once the admin or the guest user is in the stored users map, no event
    or action changes its entry, its password included: [_add_user] refuses
    an existing name, [_delete_user] a reserved one, the reconciliation
    pass adds these users only when absent, and a crashed hook does not
    commit the stored state. *)
Theorem reserved_user_entry_stable (a : Action) (env : Env) (s : St) (k : string) (v : UserData) :
  mem k [ADMIN_USERNAME; GUEST_USERNAME] = true ->
  dict_get k (users (stored s)) = Some v ->
  dict_get k (users (stored (next_state a env s))) = Some v.
Proof.
  intros Hk Hv.
  change (user_fixed k v (stored (next_state a env s))).
  unfold next_state, run_action.
  pose proof (keeps_uf_handler a k v Hk env s Hv) as H.
  destruct (handler_body a env s) as [[s1 o] [u | e]]; simpl in *; auto.
  destruct (is_lifecycle a), (is_config_missing e); simpl; auto.
Qed.

Lemma reserved_user_entry_stable_witness :
  dict_get ADMIN_USERNAME
    (users (stored (next_state (AddUser ADMIN_USERNAME "other" ADMIN_GROUP_NAME) env_newpw seeded))) =
  Some {| u_group := ADMIN_GROUP_NAME; u_password := "karaf" |}.
Proof. apply reserved_user_entry_stable; vm_compute; reflexivity. Defined.

(** ** Idempotence of the users/groups step *)

Lemma dict_mem_map_keys {V} k k' (v : V) (d : dict V) :
  dict_mem k (map (fun p => if String.eqb (fst p) k' then (k', v) else p) d) = dict_mem k d.
Proof.
  unfold dict_mem; induction d as [| [k0 v0] d IH]; simpl; [reflexivity |].
  destruct (String.eqb_spec k0 k') as [-> | _]; simpl; rewrite IH; reflexivity.
Qed.

Lemma dict_mem_set_same {V} k (v : V) d : dict_mem k (dict_set k v d) = true.
Proof.
  unfold dict_set; destruct (dict_mem k d) eqn:E.
  - rewrite dict_mem_map_keys; exact E.
  - unfold dict_mem in *; rewrite existsb_app; simpl; rewrite String.eqb_refl, orb_true_r; reflexivity.
Qed.

Lemma dict_mem_set_keep {V} k k' (v : V) d : dict_mem k d = true -> dict_mem k (dict_set k' v d) = true.
Proof.
  intros H; unfold dict_set; destruct (dict_mem k' d).
  - rewrite dict_mem_map_keys; exact H.
  - unfold dict_mem in *; rewrite existsb_app, H; reflexivity.
Qed.

Lemma dict_set_idem {V} k (v : V) d : dict_set k v (dict_set k v d) = dict_set k v d.
Proof.
  unfold dict_set at 1; rewrite dict_mem_set_same.
  unfold dict_set; destruct (dict_mem k d) eqn:E.
  - rewrite map_map; apply map_ext; intros [k0 v0]; simpl.
    destruct (String.eqb k0 k) eqn:E0; simpl; rewrite ?String.eqb_refl, ?E0; reflexivity.
  - rewrite map_app; simpl; rewrite String.eqb_refl; f_equal.
    unfold dict_mem in E; induction d as [| [k0 v0] d IH]; simpl in *; [reflexivity |].
    apply orb_false_iff in E; destruct E as [E0 E1]; rewrite E0, IH; auto.
Qed.

(** What a successful users/groups step leaves behind. *)
Definition cug_done (env : Env) (st : St) : Prop :=
  karaf_dirs env <> [] /\
  dict_mem ADMIN_USERNAME (users (stored st)) = true /\
  (enable_guest (config env) = true -> dict_mem GUEST_USERNAME (users (stored st)) = true) /\
  forallb (fun g => negb (dict_mem g (groups (stored st)))) (map fst DEFAULT_GROUPS) = false /\
  (forall f l, karaf_dirs env = f :: l -> ready (stored st) && str_truthy f = true ->
     exists F, files (container st) =
       dict_set (users_path f) (render (users (stored st)) (groups (stored st))) F).

Lemma default_groups_present (G : dict (list string)) :
  dict_mem ADMIN_GROUP_NAME G = true ->
  forallb (fun g => negb (dict_mem g G)) (map fst DEFAULT_GROUPS) = false.
Proof. intros H; simpl; rewrite H; reflexivity. Qed.

Ltac neg_conds :=
  repeat match goal with
  | H : _ && _ = true |- _ => apply andb_true_iff in H; destruct H
  | H : negb _ = true |- _ => apply negb_true_iff in H
  | H : negb _ = false |- _ => apply negb_false_iff in H
  end.

Ltac mem_tac :=
  unfold admin_user, guest_user; rewrite ?dict_update_single;
  repeat first [ assumption | rewrite dict_mem_set_same; reflexivity | apply dict_mem_set_keep ].

Lemma cug_ok_done env s :
  match configure_users_and_groups env s with
  | (s1, _, Ok _) => cug_done env s1
  | _ => True
  end.
Proof.
  cug_unfold_goal; mnorm; repeat (mcase; mnorm);
    cbn -[dict_set dict_update render dict_mem users_path cug_done forallb DEFAULT_GROUPS] in *.
  all: try exact I.
  all: neg_conds.
  all: refine (conj _ (conj _ (conj _ (conj _ _)))); cbn -[dict_set dict_update render dict_mem users_path forallb DEFAULT_GROUPS].
  all: unfold admin_user, guest_user in *; rewrite ?dict_update_single in *.
  all: first
    [ congruence
    | solve [mem_tac]
    | solve [intros Hg; mem_tac]
    | solve [intros Hg; rewrite Hg in *; cbn [andb] in *; neg_conds; mem_tac]
    | assumption
    | solve [apply default_groups_present; unfold dict_update, DEFAULT_GROUPS;
             cbn [fold_left fst snd]; mem_tac]
    | solve [intros f l0 Hd Hr; rewrite E in Hd; injection Hd as <- <-;
             first [eexists; reflexivity | congruence]] ].
Qed.

(** A successful users/groups step ([_configure_users_and_groups]) is
    idempotent: rerunning it on the state it produced, under the same
    environment, succeeds, sends nothing and changes nothing. The admin and
    (if enabled) guest users are then present, a default group exists, and
    the credentials file already holds the same rendering. *)
Theorem cug_idempotent (env : Env) (s s1 : St) (o : list Req) (u : unit) :
  configure_users_and_groups env s = (s1, o, Ok u) ->
  configure_users_and_groups env s1 = (s1, [], Ok tt).
Proof.
  intros H. pose proof (cug_ok_done env s) as D; rewrite H in D.
  destruct D as (Hk & Ha & Hg & Hgr & Hf).
  cug_unfold_goal; mnorm; repeat (mcase; mnorm);
    cbn -[dict_set dict_update render dict_mem users_path forallb DEFAULT_GROUPS] in *.
  all: neg_conds; try congruence.
  all: try match goal with G : enable_guest _ = true |- _ => specialize (Hg G); congruence end.
  all: try reflexivity.
  destruct (Hf _ _ eq_refl (andb_true_intro (conj H0 H1))) as [F HF].
  unfold modify_container; cbn [container files svc_active stored].
  rewrite HF, dict_set_idem, <- HF.
  destruct s1 as [st [fs sv sd]]; reflexivity.
Qed.

Definition s_ready : St := {| stored := set_ready true init_stored; container := container0 |}.
Definition s_ready1 : St := fst (fst (configure_users_and_groups env0 s_ready)).

Lemma cug_idempotent_witness :
  configure_users_and_groups env0 s_ready1 = (s_ready1, [], Ok tt).
Proof.
  apply (cug_idempotent env0 s_ready s_ready1
           (snd (fst (configure_users_and_groups env0 s_ready))) tt).
  vm_compute; reflexivity.
Defined.

(** ** The lifecycle flags [ready] and [started] *)

Section Flags.
Variable P : Stored -> Prop.
Hypothesis HP : forall st st',
  started st = started st' -> ready st = ready st' -> P st -> P st'.

Ltac keeps_flags :=
  repeat first [ apply keeps_modify_stored; intros; (eapply HP; [| | eassumption]); reflexivity
               | keeps_step
               | progress unfold config_admin_password, config_guest_password,
                   get_apache_karaf_folder_path, pull, configure_users_and_groups,
                   update_users, update_groups, push ].

Lemma keeps_flags_configure : keeps P configure.
Proof.
  unfold configure, check_config, configure_gui_app, activate_app, deactivate_app,
    check_app_exists, get_available_apps, config_admin_password, config_guest_password,
    configure_users_and_groups, get_apache_karaf_folder_path, update_users,
    update_groups, push, pull, configure_ingress, configure_async_logging.
  keeps_flags.
Qed.

Lemma keeps_flags_handler a : a <> PebbleReady -> keeps P (handler_body a).
Proof.
  intros Ha; destruct a; [congruence | ..]; simpl;
    unfold activate_app, deactivate_app, check_app_exists, get_available_apps,
      config_admin_password, configure_users_and_groups, config_guest_password,
      get_apache_karaf_folder_path, update_users, update_groups, push,
      restart_onos, start_onos, stop_onos, onos_service_active, set_svc,
      add_user, add_group, delete_user, delete_group;
    try apply keeps_flags_configure; keeps_flags.
Qed.
End Flags.

Definition is_ready (st : Stored) : Prop := ready st = true.

Definition started_ready (st : Stored) : Prop := started st = true -> ready st = true.

Lemma is_ready_flags st st' :
  started st = started st' -> ready st = ready st' -> is_ready st -> is_ready st'.
Proof. unfold is_ready; congruence. Qed.

Lemma started_ready_flags st st' :
  started st = started st' -> ready st = ready st' -> started_ready st -> started_ready st'.
Proof. unfold started_ready; intros Hs Hr H Hs'; rewrite <- Hr; apply H; congruence. Qed.

(** The [pebble-ready] handler records [ready] first, so it holds at the
    end whatever the rest of the handler does. *)
Lemma pebble_ready_sets_ready env s :
  ready (stored (fst (fst (handler_body PebbleReady env s)))) = true.
Proof.
  simpl; rewrite bind_modify_stored.
  change (is_ready (stored (fst (fst
    ((configure ;; add_onos_layer ;; restart_onos ;; modify_stored (set_started true))
       env {| stored := set_ready true (stored s); container := container s |}))))).
  assert (K : keeps is_ready (configure ;; add_onos_layer ;; restart_onos ;;
                              modify_stored (set_started true))).
  { unfold add_onos_layer, restart_onos, onos_service_active, set_svc.
    apply keeps_bind; [apply (keeps_flags_configure _ is_ready_flags) | intros].
    keeps_tac; unfold is_ready in *; simpl; assumption. }
  apply K; reflexivity.
Qed.

Lemma keeps_is_ready_handler a : keeps is_ready (handler_body a).
Proof.
  destruct a; [intros env s _; apply pebble_ready_sets_ready | ..];
    apply (keeps_flags_handler _ is_ready_flags); discriminate.
Qed.

(** Once recorded, [ready] is never reset: no event or action writes it
    back to false, and a crashed hook rolls back to a state where it was
    already true. *)
Theorem ready_persists (a : Action) (env : Env) (s : St) :
  ready (stored s) = true -> ready (stored (next_state a env s)) = true.
Proof.
  intros Hs; change (is_ready (stored (next_state a env s))).
  unfold next_state, run_action.
  pose proof (keeps_is_ready_handler a env s Hs) as H.
  destruct (handler_body a env s) as [[s1 o] [u | e]]; simpl in *; auto.
  destruct (is_lifecycle a), (is_config_missing e); simpl; auto.
Qed.

Lemma ready_persists_witness :
  ready (stored (next_state (DeleteGroup ADMIN_GROUP_NAME) env0 s_ready)) = true.
Proof. apply ready_persists; reflexivity. Defined.

(** In every reachable state, [started] implies [ready]: only the
    [pebble-ready] handler sets [started], at its end, after it has set
    [ready]. So the remote activation calls that [started] enables are
    only made by a charm that has recorded [ready]. *)
Theorem reachable_started_ready (s : St) :
  reachable s -> started (stored s) = true -> ready (stored s) = true.
Proof.
  intros R; change (started_ready (stored s)).
  induction R as [c | a env s _ IH]; [discriminate |].
  unfold next_state, run_action.
  assert (K : started_ready (stored (fst (fst (handler_body a env s))))).
  { destruct a;
      [intros _; apply pebble_ready_sets_ready
      | refine (keeps_flags_handler _ started_ready_flags _ _ env s IH); discriminate ..]. }
  destruct (handler_body a env s) as [[s1 o] [u | e]]; simpl in *; auto.
  destruct (is_lifecycle a), (is_config_missing e); simpl; auto.
Qed.

Lemma reachable_started_ready_witness :
  ready (stored (next_state PebbleReady env0 (init_state container0))) = true.
Proof.
  apply reachable_started_ready.
  - apply reach_step, reach_init.
  - vm_compute; reflexivity.
Defined.

(** ** Adding then deleting a user *)

Lemma dict_mem_remove_other {V} k u (d : dict V) :
  u <> k -> dict_mem k (dict_remove u d) = dict_mem k d.
Proof.
  intros Hne; unfold dict_mem, dict_remove.
  induction d as [| [k' v'] d IH]; simpl; [reflexivity |].
  destruct (String.eqb_spec k' u) as [-> | Hu]; simpl.
  - apply String.eqb_neq in Hne; rewrite Hne, IH; reflexivity.
  - rewrite IH; reflexivity.
Qed.

Lemma dict_remove_set_new {V} u (v : V) d :
  dict_mem u d = false -> dict_remove u (dict_set u v d) = d.
Proof.
  intros H; unfold dict_set; rewrite H; unfold dict_remove.
  rewrite filter_app; simpl; rewrite String.eqb_refl, app_nil_r.
  unfold dict_mem in H; induction d as [| [k v'] d IH]; simpl in *; [reflexivity |].
  apply orb_false_iff in H; destruct H as [H1 H2]; rewrite H1, IH by exact H2; reflexivity.
Qed.

(** With the admin user (and, when enabled, the guest user) present, the
    users/groups step leaves the users map as it is, whatever its outcome. *)
Lemma cug_users_same env s :
  dict_mem ADMIN_USERNAME (users (stored s)) = true ->
  (enable_guest (config env) = true -> dict_mem GUEST_USERNAME (users (stored s)) = true) ->
  users (stored (fst (fst (configure_users_and_groups env s)))) = users (stored s).
Proof.
  intros Ha Hg; cug_unfold_goal; mnorm; repeat (mcase; mnorm);
    cbn -[dict_set dict_update render dict_mem users_path forallb DEFAULT_GROUPS] in *.
  all: neg_conds; try congruence.
  all: try match goal with G : enable_guest _ = true |- _ => specialize (Hg G); congruence end.
  all: reflexivity.
Qed.

(** Once the admin user is seeded (and the guest user too when guest access
    is enabled), a successful [_add_user] followed by [_delete_user] of the
    same name gives back the users map exactly, entry order included. *)
Theorem add_then_delete_user (env : Env) (s : St) (u p g : string) :
  dict_mem g (groups (stored s)) = true ->
  dict_mem u (users (stored s)) = false ->
  mem u [ADMIN_USERNAME; GUEST_USERNAME] = false ->
  dict_mem ADMIN_USERNAME (users (stored s)) = true ->
  (enable_guest (config env) = true -> dict_mem GUEST_USERNAME (users (stored s)) = true) ->
  users (stored (fst (fst (delete_user u env (fst (fst (add_user u p g env s))))))) =
  users (stored s).
Proof.
  intros Hgr Hu Hr Ha Hg.
  destruct (mem_reserved_users u Hr) as [Hua Hug].
  set (d := {| u_group := g; u_password := p |}).
  assert (H1 : users (stored (fst (fst (add_user u p g env s)))) =
               dict_set u d (users (stored s))).
  { unfold add_user; rewrite bind_get, Hgr, Hu, Hr; cbn [negb].
    unfold update_users; rewrite bind_modify_stored.
    rewrite cug_users_same; [reflexivity | |]; simpl; rewrite ?dict_update_single.
    - apply dict_mem_set_keep; exact Ha.
    - intros G; apply dict_mem_set_keep; auto. }
  set (s1 := fst (fst (add_user u p g env s))) in *.
  unfold delete_user; rewrite bind_get, H1, dict_mem_set_same, Hr; cbn [negb].
  rewrite bind_modify_stored.
  rewrite cug_users_same; simpl.
  - rewrite H1; apply dict_remove_set_new; exact Hu.
  - rewrite dict_mem_remove_other by congruence; rewrite H1; apply dict_mem_set_keep; exact Ha.
  - intros G; rewrite dict_mem_remove_other by congruence; rewrite H1;
      apply dict_mem_set_keep; auto.
Qed.

Lemma add_then_delete_user_witness :
  users (stored (fst (fst (delete_user "alice" env0
    (fst (fst (add_user "alice" "p" ADMIN_GROUP_NAME env0 seeded))))))) =
  users (stored seeded).
Proof.
  apply add_then_delete_user; vm_compute; try reflexivity; discriminate.
Defined.

(** ** The service after [pebble-ready] *)


